(** * Presence and messaging coordinator of the chat server

    A shallow embedding of the server program (the Express route
    [POST /api/register] and the socket.io handlers [user-login],
    [get-chat-history], [send-message], [typing], [disconnect] and
    [logout]) together with the properties of its registry, its connection
    map and its conversation store.

    Conventions of the embedding:
    - a JavaScript string is a [string]; comparison is by character code,
      as the default [Array.prototype.sort] comparator does on code units;
      [trim] and [toLowerCase] are the JavaScript functions on ASCII
      strings, and a statement that depends on what they do to a string
      beyond that says that the string is ASCII;
    - a value received from a client (a JSON payload or one of its fields)
      is a [Js.value]; numbers are restricted to integers and arrays are
      not modelled; ToString of such a value can raise a TypeError, and
      then the handler that asked for it throws;
    - [users] is a JavaScript [Map] that the program iterates, so it is an
      insertion-ordered association list ([OrdMap]); [connections] and
      [messages] are only accessed by key and are [gmap]s;
    - [Date.now()], [Math.random().toString(36)] and
      [new Date().toISOString()] are read from a [Clock] supplied with the
      event;
    - a handler returns the state it leaves, the events it emitted and
      whether it returned or threw. *)

From Stdlib Require Import ZArith Ascii String DecimalString.
From stdpp Require Import base option list strings gmap.

#[local] Set Warnings "-clear-no-such-hyp".

Local Open Scope string_scope.
Local Open Scope Z_scope.

(** ** JavaScript strings *)

Module JsString.

Definition is_white_space (c : ascii) : bool :=
  let n := N_of_ascii c in
  ((9 <=? n) && (n <=? 13))%N || (n =? 32)%N.

Fixpoint trimStart (s : string) : string :=
  match s with
  | EmptyString => EmptyString
  | String c s' => if is_white_space c then trimStart s' else s
  end.

Fixpoint trimEnd (s : string) : string :=
  match s with
  | EmptyString => EmptyString
  | String c s' =>
      match trimEnd s' with
      | EmptyString => if is_white_space c then EmptyString else String c EmptyString
      | t => String c t
      end
  end.

(** [s.trim()] of an ASCII string: the white space it strips there is the
    ASCII white space. *)
Definition trim (s : string) : string := trimEnd (trimStart s).

Definition lower_char (c : ascii) : ascii :=
  let n := N_of_ascii c in
  if ((65 <=? n) && (n <=? 90))%N then ascii_of_N (n + 32) else c.

(** [s.toLowerCase()] of an ASCII string *)
Fixpoint toLowerCase (s : string) : string :=
  match s with
  | EmptyString => EmptyString
  | String c s' => String (lower_char c) (toLowerCase s')
  end.

(** [s.substr(start, len)] for non-negative arguments *)
Definition substr (start len : nat) (s : string) : string :=
  String.substring start len s.

(** The decimal rendering of a non-negative integer in a template
    literal. *)
Definition of_N (n : N) : string := NilZero.string_of_uint (N.to_uint n).

(** The decimal rendering of an integer. *)
Definition of_Z (n : Z) : string := NilZero.string_of_int (Z.to_int n).

Definition is_digit (c : ascii) : bool :=
  let n := N_of_ascii c in ((48 <=? n) && (n <=? 57))%N.

(** The digits of [Number.prototype.toString(36)]. *)
Definition is_base36 (c : ascii) : bool :=
  let n := N_of_ascii c in
  is_digit c || ((97 <=? n) && (n <=? 122))%N.

Definition all_chars (p : ascii → bool) (s : string) : bool :=
  forallb p (list_ascii_of_string s).

End JsString.

(** ** Values received from clients *)

Module Js.

#[local] Unset Elimination Schemes.
Inductive value : Type :=
| VUndefined
| VNull
| VBool (b : bool)
| VNum (n : Z)
| VStr (s : string)
| VObj (fields : list (string * value)).
#[local] Set Elimination Schemes.

(** ToBoolean *)
Definition truthy (v : value) : bool :=
  match v with
  | VUndefined | VNull => false
  | VBool b => b
  | VNum n => negb (n =? 0)%Z
  | VStr s => negb (String.eqb s "")
  | VObj _ => true
  end.

(** Whether an object has an own property of that name. *)
Fixpoint has_field (name : string) (fields : list (string * value)) : bool :=
  match fields with
  | [] => false
  | (k, _) :: rest => String.eqb k name || has_field name rest
  end.

(** ToString, as used by the default sort comparator and by [join]. An
    object of a parsed payload that has an own property [toString] raises
    a TypeError: the property is not callable, and [valueOf] gives back
    the object; that is [None]. Every other object is rendered by
    [Object.prototype.toString]. *)
Definition toString (v : value) : option string :=
  match v with
  | VUndefined => Some "undefined"
  | VNull => Some "null"
  | VBool true => Some "true"
  | VBool false => Some "false"
  | VNum n => Some (JsString.of_Z n)
  | VStr s => Some s
  | VObj fields =>
      if has_field "toString" fields then None else Some "[object Object]"
  end.

(** The string of a value whose ToString returns. Where ToString throws,
    [sort] and [join] below are not reached: see [throws]. *)
Definition string_of (v : value) : string :=
  match toString v with Some s => s | None => "" end.

(** Whether [array.sort().join(sep)] throws: ToString throws on one of
    the elements, in a comparison of the sort or, for an element that the
    sort compares with nothing, in [join]. *)
Definition throws (l : list value) : bool :=
  existsb (λ v, match toString v with None => true | Some _ => false end) l.

Fixpoint field (name : string) (fields : list (string * value)) : value :=
  match fields with
  | [] => VUndefined
  | (k, v) :: rest => if String.eqb k name then v else field name rest
  end.

(** The binding of [name] in a destructuring parameter [({ name })]:
    [None] is the TypeError raised for [undefined] and [null]; the
    primitives have no own property of the names the handlers use. *)
Definition destructure (payload : value) (name : string) : option value :=
  match payload with
  | VUndefined | VNull => None
  | VObj fields => Some (field name fields)
  | _ => Some VUndefined
  end.

(** [v.trim()]: only a string has the method; anything else raises a
    TypeError, rendered as [None]. *)
Definition call_trim (v : value) : option string :=
  match v with
  | VStr s => Some (JsString.trim s)
  | _ => None
  end.

(** The default comparator of [Array.prototype.sort]: [undefined] sorts
    last, everything else by its string. [sort_le x y] says that [x] may
    stay in front of [y]. *)
Definition sort_le (x y : value) : bool :=
  match x, y with
  | VUndefined, VUndefined => true
  | VUndefined, _ => false
  | _, VUndefined => true
  | _, _ => String.leb (string_of x) (string_of y)
  end.

Fixpoint sort_insert (x : value) (l : list value) : list value :=
  match l with
  | [] => [x]
  | y :: l' => if sort_le x y then x :: l else y :: sort_insert x l'
  end.

(** [array.sort()] (stable) *)
Definition sort (l : list value) : list value := foldr sort_insert [] l.

Definition join_item (v : value) : string :=
  match v with
  | VUndefined | VNull => ""
  | _ => string_of v
  end.

(** [array.join(sep)] *)
Fixpoint join (sep : string) (l : list value) : string :=
  match l with
  | [] => ""
  | [v] => join_item v
  | v :: rest => join_item v +:+ sep +:+ join sep rest
  end.

(** [array.slice(start)] *)
Definition slice {A} (start : Z) (l : list A) : list A :=
  let len := Z.of_nat (length l) in
  let k := if start <? 0 then Z.max (len + start) 0 else Z.min start len in
  drop (Z.to_nat k) l.

End Js.

(** ** An insertion-ordered [Map] with string keys *)

Module OrdMap.
Section ordmap.
Context {V : Type}.

Definition t := list (string * V).

Fixpoint get (k : string) (m : t) : option V :=
  match m with
  | [] => None
  | (k', v) :: m' => if String.eqb k' k then Some v else get k m'
  end.

Definition has (k : string) (m : t) : bool :=
  match get k m with Some _ => true | None => false end.

(** [m.set(k, v)]: an existing key keeps its position. *)
Fixpoint set (k : string) (v : V) (m : t) : t :=
  match m with
  | [] => [(k, v)]
  | (k', v') :: m' =>
      if String.eqb k' k then (k, v) :: m' else (k', v') :: set k v m'
  end.

Definition values (m : t) : list V := map snd m.

End ordmap.
Arguments t : clear implicits.
End OrdMap.

(** ** Data model *)

Module User.
(** The value stored in [users]: [{ username, socketId, online, createdAt }] *)
Record t : Type := mk {
  username : string;
  socketId : option string;
  online : bool;
  createdAt : string;
}.
End User.

Module Message.
(** [messageData] of the [send-message] handler *)
Record t : Type := mk {
  id : string;
  senderId : string;
  senderName : string;
  recipientId : string;
  recipientName : string;
  message : string;
  timestamp : string;
}.
End Message.

(** The three maps of the server. *)
Record State : Type := mkState {
  users : OrdMap.t User.t;
  connections : gmap string string;
  messages : gmap string (list Message.t);
}.

Definition initial : State :=
  {| users := []; connections := ∅; messages := ∅ |}.

(** What the handler reads from its environment while it runs. *)
Record Clock : Type := mkClock {
  date_now : N;              (* Date.now() *)
  random_base36 : string;    (* Math.random().toString(36) *)
  iso_now : string;          (* new Date().toISOString() *)
}.

(** Where an event is emitted to. *)
Inductive Target : Type :=
| ToSocket (socket_id : string)          (* socket.emit *)
| ToRoom (room : string)                 (* io.to(room).emit *)
| ToAll                                  (* io.emit *)
| ToAllExcept (socket_id : string).      (* socket.broadcast.emit *)

Inductive OutEvent : Type :=
| EvError (message : string)
| EvLoginSuccess (userId username : string)
| EvUsersUpdate (onlineUsers : list (string * string))
| EvUserOnline (userId username : string)
| EvUserOffline (userId username : string)
| EvChatHistory (otherUserId : Js.value) (history : list Message.t)
| EvReceiveMessage (messageData : Message.t)
| EvMessageSent (messageData : Message.t)
| EvUserTyping (userId : string) (isTyping : Js.value).

Record Emission : Type := emit { target : Target; event : OutEvent }.

Inductive Outcome : Type := Returned | Thrown.

Record Result : Type := mkResult {
  st : State;
  out : list Emission;
  outcome : Outcome;
}.

Definition returned (σ : State) (es : list Emission) : Result :=
  {| st := σ; out := es; outcome := Returned |}.

Definition thrown (σ : State) (es : list Emission) : Result :=
  {| st := σ; out := es; outcome := Thrown |}.

(** ** Helper functions of the server *)

(** Whether [getConversationId(user1, user2)] throws. *)
Definition getConversationId_throws (user1 user2 : Js.value) : bool :=
  Js.throws [user1; user2].

(** [getConversationId(user1, user2)], where it returns. *)
Definition getConversationId (user1 user2 : Js.value) : string :=
  Js.join "_" (Js.sort [user1; user2]).

Definition not_excluded (userId : string) (excludeUserId : option string) : bool :=
  match excludeUserId with
  | None => true
  | Some x => negb (String.eqb userId x)
  end.

(** [getOnlineUsers(excludeUserId = null)] *)
Definition getOnlineUsers (σ : State) (excludeUserId : option string)
  : list (string * string) :=
  omap (λ '(userId, user),
          if User.online user && not_excluded userId excludeUserId
          then Some (userId, User.username user) else None)
       (users σ).

(** [messages.get(conversationId) || []] *)
Definition conversation (σ : State) (conversationId : string) : list Message.t :=
  default [] (messages σ !! conversationId).

(** [getChatHistory(user1, user2, limit = 50)], where
    [getConversationId] returns; [None] is a missing (undefined) third
    argument. *)
Definition getChatHistory (σ : State) (user1 user2 : Js.value) (limit : option Z)
  : list Message.t :=
  let limit := default 50 limit in
  let conversationId := getConversationId user1 user2 in
  let history := conversation σ conversationId in
  Js.slice (- limit) history.

(** The sum reported by the health check as [totalMessages]. *)
Definition totalMessages (σ : State) : nat :=
  map_fold (λ _ msgs sum, (sum + length msgs)%nat) 0%nat (messages σ).

(** The key of [users] a client value denotes, if any: the keys are
    strings, so only a string can be found by [has] and [get]. *)
Definition users_get (σ : State) (key : Js.value) : option (string * User.t) :=
  match key with
  | Js.VStr k => (λ u, (k, u)) <$> OrdMap.get k (users σ)
  | _ => None
  end.

(** Truthiness of what [connections.get(socket.id)] or [user.socketId]
    holds: [undefined], [null] and the empty string are falsy. *)
Definition truthy_id (o : option string) : option string :=
  match o with
  | Some s => if String.eqb s "" then None else Some s
  | None => None
  end.

(** [`${prefix}_${Date.now()}_${Math.random().toString(36).substr(2, 9)}`] *)
Definition fresh_id (prefix : string) (clk : Clock) : string :=
  prefix +:+ "_" +:+ JsString.of_N (date_now clk) +:+ "_"
         +:+ JsString.substr 2 9 (random_base36 clk).

(** ** Registration: [POST /api/register] *)

Inductive Response : Type :=
| Registered (userId username : string)    (* 200, success: true *)
| InvalidName                              (* 400, at least 2 characters *)
| NameTaken                                (* 400, already taken *)
| ServerError.                             (* 500, the handler threw *)

Definition name_exists (σ : State) (name : string) : bool :=
  existsb (λ user, String.eqb (JsString.toLowerCase (User.username user))
                              (JsString.toLowerCase name))
          (OrdMap.values (users σ)).

Definition register (clk : Clock) (username : Js.value) (σ : State)
  : State * Response :=
  if negb (Js.truthy username) then (σ, InvalidName) else
  match username with
  | Js.VStr name =>
      if (String.length (JsString.trim name) <? 2)%nat then (σ, InvalidName) else
      if name_exists σ name then (σ, NameTaken) else
      let userId := fresh_id "user" clk in
      let user := {| User.username := JsString.trim name;
                     User.socketId := None;
                     User.online := false;
                     User.createdAt := iso_now clk |} in
      ({| users := OrdMap.set userId user (users σ);
          connections := connections σ;
          messages := messages σ |},
       Registered userId (JsString.trim name))
  | _ => (σ, ServerError)   (* username.trim is not a function *)
  end.

(** ** Socket handlers *)

Definition set_user (userId : string) (user : User.t) (σ : State) : State :=
  {| users := OrdMap.set userId user (users σ);
     connections := connections σ;
     messages := messages σ |}.

(** [socket.on("user-login", ({ userId }) => ...)] *)
Definition on_user_login (socket_id : string) (payload : Js.value) (σ : State)
  : Result :=
  match Js.destructure payload "userId" with
  | None => thrown σ []
  | Some userId =>
      match users_get σ userId with
      | None => returned σ [emit (ToSocket socket_id) (EvError "User not found")]
      | Some (userId, user) =>
          let user := {| User.username := User.username user;
                         User.socketId := Some socket_id;
                         User.online := true;
                         User.createdAt := User.createdAt user |} in
          let σ1 := set_user userId user σ in
          let σ2 := {| users := users σ1;
                       connections := <[socket_id := userId]> (connections σ1);
                       messages := messages σ1 |} in
          returned σ2
            [ emit (ToSocket socket_id) (EvLoginSuccess userId (User.username user));
              emit ToAll (EvUsersUpdate (getOnlineUsers σ2 None));
              emit (ToAllExcept socket_id) (EvUserOnline userId (User.username user)) ]
      end
  end.

(** [socket.on("get-chat-history", ({ otherUserId }) => ...)] *)
Definition on_get_chat_history (socket_id : string) (payload : Js.value) (σ : State)
  : Result :=
  match Js.destructure payload "otherUserId" with
  | None => thrown σ []
  | Some otherUserId =>
      match truthy_id (connections σ !! socket_id) with
      | None => returned σ []
      | Some userId =>
          if getConversationId_throws (Js.VStr userId) otherUserId
          then thrown σ []       (* ToString of otherUserId, in getConversationId *)
          else
            let history := getChatHistory σ (Js.VStr userId) otherUserId None in
            returned σ [emit (ToSocket socket_id) (EvChatHistory otherUserId history)]
      end
  end.

(** The store step of [send-message]: create the entry if absent, push. *)
Definition push_message (conversationId : string) (messageData : Message.t)
    (σ : State) : State :=
  let msgs1 :=
    match messages σ !! conversationId with
    | Some _ => messages σ
    | None => <[conversationId := []]> (messages σ)
    end in
  {| users := users σ;
     connections := connections σ;
     messages := <[conversationId :=
                     (default [] (msgs1 !! conversationId) ++ [messageData])%list]> msgs1 |}.

(** [socket.on("send-message", ({ recipientId, message }) => ...)] *)
Definition on_send_message (socket_id : string) (clk : Clock) (payload : Js.value)
    (σ : State) : Result :=
  match Js.destructure payload "recipientId", Js.destructure payload "message" with
  | Some recipientId, Some message =>
      match truthy_id (connections σ !! socket_id) with
      | None => returned σ [emit (ToSocket socket_id) (EvError "Not authenticated")]
      | Some senderId =>
          match users_get σ recipientId with
          | None =>
              returned σ [emit (ToSocket socket_id) (EvError "Recipient not found")]
          | Some (recipientId, recipient) =>
              match OrdMap.get senderId (users σ) with
              | None => thrown σ []          (* sender.username of undefined *)
              | Some sender =>
                  match Js.call_trim message with
                  | None => thrown σ []      (* message.trim() *)
                  | Some body =>
                      let messageData :=
                        {| Message.id := fresh_id "msg" clk;
                           Message.senderId := senderId;
                           Message.senderName := User.username sender;
                           Message.recipientId := recipientId;
                           Message.recipientName := User.username recipient;
                           Message.message := body;
                           Message.timestamp := iso_now clk |} in
                      let conversationId :=
                        getConversationId (Js.VStr senderId) (Js.VStr recipientId) in
                      let σ' := push_message conversationId messageData σ in
                      let to_recipient :=
                        match User.online recipient, truthy_id (User.socketId recipient) with
                        | true, Some room => [emit (ToRoom room) (EvReceiveMessage messageData)]
                        | _, _ => []
                        end in
                      returned σ'
                        (to_recipient ++ [emit (ToSocket socket_id) (EvMessageSent messageData)])%list
                  end
              end
          end
      end
  | _, _ => thrown σ []
  end.

(** [socket.on("typing", ({ recipientId, isTyping }) => ...)] *)
Definition on_typing (socket_id : string) (payload : Js.value) (σ : State) : Result :=
  match Js.destructure payload "recipientId", Js.destructure payload "isTyping" with
  | Some recipientId, Some isTyping =>
      match truthy_id (connections σ !! socket_id) with
      | None => returned σ []
      | Some senderId =>
          match users_get σ recipientId with
          | Some (_, recipient) =>
              match User.online recipient, truthy_id (User.socketId recipient) with
              | true, Some room =>
                  returned σ [emit (ToRoom room) (EvUserTyping senderId isTyping)]
              | _, _ => returned σ []
              end
          | None => returned σ []
          end
      end
  | _, _ => thrown σ []
  end.

(** [socket.on("disconnect", () => ...)] *)
Definition on_disconnect (socket_id : string) (σ : State) : Result :=
  let unbind (σ0 : State) : State :=     (* connections.delete(socket.id) *)
    {| users := users σ0;
       connections := delete socket_id (connections σ0);
       messages := messages σ0 |} in
  match truthy_id (connections σ !! socket_id) with
  | Some userId =>
      match OrdMap.get userId (users σ) with
      | Some user =>
          let user := {| User.username := User.username user;
                         User.socketId := None;
                         User.online := false;
                         User.createdAt := User.createdAt user |} in
          let σ1 := set_user userId user σ in
          returned (unbind σ1)
            [ emit (ToAllExcept socket_id) (EvUserOffline userId (User.username user));
              emit ToAll (EvUsersUpdate (getOnlineUsers σ1 None)) ]
      | None => returned (unbind σ) []
      end
  | None => returned (unbind σ) []
  end.

(** [socket.on("logout", () => ...)]: the text of the disconnect handler. *)
Definition on_logout (socket_id : string) (σ : State) : Result :=
  let unbind (σ0 : State) : State :=     (* connections.delete(socket.id) *)
    {| users := users σ0;
       connections := delete socket_id (connections σ0);
       messages := messages σ0 |} in
  match truthy_id (connections σ !! socket_id) with
  | Some userId =>
      match OrdMap.get userId (users σ) with
      | Some user =>
          let user := {| User.username := User.username user;
                         User.socketId := None;
                         User.online := false;
                         User.createdAt := User.createdAt user |} in
          let σ1 := set_user userId user σ in
          returned (unbind σ1)
            [ emit (ToAllExcept socket_id) (EvUserOffline userId (User.username user));
              emit ToAll (EvUsersUpdate (getOnlineUsers σ1 None)) ]
      | None => returned (unbind σ) []
      end
  | None => returned (unbind σ) []
  end.

(** ** The server as a machine over inbound events *)

Inductive Event : Type :=
| Register (clk : Clock) (username : Js.value)
| UserLogin (socket_id : string) (payload : Js.value)
| GetChatHistory (socket_id : string) (payload : Js.value)
| SendMessage (socket_id : string) (clk : Clock) (payload : Js.value)
| Typing (socket_id : string) (payload : Js.value)
| Disconnect (socket_id : string)
| Logout (socket_id : string).

(** One inbound event, handled to completion. Express answers a throwing
    route with a 500, so registration always returns to the event loop. *)
Definition step (σ : State) (ev : Event) : Result :=
  match ev with
  | Register clk username => returned (register clk username σ).1 []
  | UserLogin c payload => on_user_login c payload σ
  | GetChatHistory c payload => on_get_chat_history c payload σ
  | SendMessage c clk payload => on_send_message c clk payload σ
  | Typing c payload => on_typing c payload σ
  | Disconnect c => on_disconnect c σ
  | Logout c => on_logout c σ
  end.

(** The state after a sequence of events. An exception that escapes a
    socket handler is uncaught and ends the process: the run stops there. *)
Fixpoint run (σ : State) (evs : list Event) : State :=
  match evs with
  | [] => σ
  | ev :: evs' =>
      let r := step σ ev in
      match outcome r with
      | Returned => run (st r) evs'
      | Thrown => st r
      end
  end.

Definition reachable (σ : State) : Prop := ∃ evs, σ = run initial evs.

(** ** Vocabulary of the properties *)

(** Registered identifiers are non-empty strings, every bound channel is
    bound to a registered identifier, and the two presence fields of a
    user are written together. *)
Record Inv (σ : State) : Prop := mkInv {
  inv_key_truthy : ∀ uid u, OrdMap.get uid (users σ) = Some u → uid ≠ "";
  inv_bound_registered :
    ∀ c uid, connections σ !! c = Some uid → is_Some (OrdMap.get uid (users σ));
  inv_online_socket :
    ∀ uid u, OrdMap.get uid (users σ) = Some u →
             (User.online u = true ↔ User.socketId u ≠ None);
}.

(** The online flag and the connection handle agree. *)
Definition online_iff_handle (σ : State) : Prop :=
  ∀ uid u, OrdMap.get uid (users σ) = Some u →
           (User.online u = true ↔ User.socketId u ≠ None).

(** The connection handle and the connection map agree. *)
Definition handle_iff_bound (σ : State) : Prop :=
  ∀ uid u, OrdMap.get uid (users σ) = Some u →
           (User.socketId u ≠ None ↔ ∃ c, connections σ !! c = Some uid).

Definition presence_synchronised (σ : State) : Prop :=
  online_iff_handle σ ∧ handle_iff_bound σ.

(** The events of a run in which every user has one session at a time: a
    login arrives on an unbound channel for a user who is offline, and a
    registration draws an identifier that is not in the registry. *)
Definition single_session (σ : State) (ev : Event) : Prop :=
  match ev with
  | Register clk _ => OrdMap.get (fresh_id "user" clk) (users σ) = None
  | UserLogin c payload =>
      connections σ !! c = None
      ∧ ∀ userId uid u, Js.destructure payload "userId" = Some userId →
                        users_get σ userId = Some (uid, u) →
                        User.online u = false
  | _ => True
  end.

Fixpoint single_session_run (σ : State) (evs : list Event) : Prop :=
  match evs with
  | [] => True
  | ev :: evs' =>
      single_session σ ev
      ∧ match outcome (step σ ev) with
        | Returned => single_session_run (st (step σ ev)) evs'
        | Thrown => True
        end
  end.

(** The invariant of such runs: the handle of a user is the one channel
    bound to the user. *)
Record SessionInv (σ : State) : Prop := mkSessionInv {
  session_inv : Inv σ;
  session_handle_bound :
    ∀ uid u c, OrdMap.get uid (users σ) = Some u →
               (User.socketId u = Some c ↔ connections σ !! c = Some uid);
}.

(** The last [n] elements of a list, in their order. *)
Definition last_n {A} (n : nat) (l : list A) : list A := drop (length l - n) l.

(** Identifiers allocated by registration:
    [user_<timestamp>_<9 base36 chars>] *)
Definition registration_id (uid : string) : Prop :=
  ∃ ts rnd, uid = "user_" +:+ ts +:+ "_" +:+ rnd
            ∧ JsString.all_chars JsString.is_digit ts = true
            ∧ String.length rnd = 9%nat
            ∧ JsString.all_chars JsString.is_base36 rnd = true.

(** Two unordered pairs are the same pair. *)
Definition same_pair (a b c d : string) : Prop :=
  (a = c ∧ b = d) ∨ (a = d ∧ b = c).

(** A sequence of typing events, each with its channel and payload. *)
Definition typing_events (l : list (string * Js.value)) : list Event :=
  map (λ '(c, payload), Typing c payload) l.

(** ** Sample runs *)

Module Sample.

Definition clk1 : Clock :=
  {| date_now := 1700000000000;
     random_base36 := "0.4fzyo82mvyr";
     iso_now := "2023-11-14T22:13:20.000Z" |}.

Definition clk2 : Clock :=
  {| date_now := 1700000000001;
     random_base36 := "0.k3j9x0q1zab";
     iso_now := "2023-11-14T22:13:20.001Z" |}.

Definition clk3 : Clock :=
  {| date_now := 1700000000002;
     random_base36 := "0.z7y6x5w4v3u";
     iso_now := "2023-11-14T22:13:20.002Z" |}.

(** The identifiers that [clk1] and [clk2] give to the first two users. *)
Definition alice : string := "user_1700000000000_4fzyo82mv".
Definition bob : string := "user_1700000000001_k3j9x0q1z".

(** An identifier of the same form that is not registered in the runs
    below. *)
Definition carol : string := "user_1700000000002_z7y6x5w4v".

Definition login_payload (userId : string) : Js.value :=
  Js.VObj [("userId", Js.VStr userId)].

Definition message_payload (recipientId : Js.value) (message : Js.value) : Js.value :=
  Js.VObj [("recipientId", recipientId); ("message", message)].

Definition typing_payload (recipientId : string) (isTyping : bool) : Js.value :=
  Js.VObj [("recipientId", Js.VStr recipientId); ("isTyping", Js.VBool isTyping)].

Definition registrations : list Event :=
  [Register clk1 (Js.VStr "alice"); Register clk2 (Js.VStr "bob")].

(** alice and bob registered, alice logged in on channel [s1]. *)
Definition alice_online : list Event :=
  registrations ++ [UserLogin "s1" (login_payload alice)].

(** alice logs in on [s1], bob on [s2], then alice logs out. *)
Definition separate_logins : list Event :=
  alice_online ++ [UserLogin "s2" (login_payload bob); Logout "s1"].

(** alice logs in on [s1], then on [s2], then [s1] closes. *)
Definition double_login : list Event :=
  alice_online ++ [UserLogin "s2" (login_payload alice); Disconnect "s1"].

Definition hello (clk : Clock) (text : string) : Event :=
  SendMessage "s1" clk (message_payload (Js.VStr bob) (Js.VStr text)).

(** alice sends two messages to bob, who is registered and offline. *)
Definition two_messages : list Event :=
  alice_online ++ [hello clk2 "hi"; hello clk3 "there"].

(** The clock [i] milliseconds after [clk3]. *)
Definition tick (i : nat) : Clock :=
  {| date_now := 1700000000003 + N.of_nat i;
     random_base36 := "0.q8w7e6r5t4y";
     iso_now := "2023-11-14T22:13:20.003Z" |}.

(** alice sends 51 messages to bob. *)
Definition fifty_one_messages : list Event :=
  alice_online ++ map (λ i, hello (tick i) "hi") (seq 0 51).

End Sample.

(** ** The remaining endpoints *)

(** The keys of a map, in iteration order; [m.size] is their number. *)
Definition ordmap_keys {V} (m : OrdMap.t V) : list string := map fst m.

(** The body of the answer of [GET /]. *)
Record Health : Type := mkHealth {
  status : string;
  onlineUsers : nat;           (* users.size *)
  health_totalMessages : nat;  (* the sum of the lengths of messages.values() *)
}.

(** [app.get("/", ...)] *)
Definition health_check (σ : State) : Health :=
  {| status := "Chat Server Running";
     onlineUsers := length (ordmap_keys (users σ));
     health_totalMessages := totalMessages σ |}.

(** [app.get("/api/users", ...)]: [{ userId, username, online }] for every
    entry of [users], in iteration order. *)
Definition api_users (σ : State) : list (string * string * bool) :=
  map (λ '(userId, user), (userId, User.username user, User.online user))
      (users σ).

(** ** The client: socket singleton and message form *)

Module Client.

(** The module state of [lib/socket.js] and what it has done to the
    sockets it created. A socket object is named by its rank among the
    calls of [io]. *)
Record SocketModule : Type := mkSocketModule {
  socket : option nat;        (* let socket = null *)
  created : nat;              (* calls of io(...) so far *)
  disconnected : list nat;    (* sockets on which disconnect() was called *)
}.

Definition fresh_module : SocketModule :=
  {| socket := None; created := 0; disconnected := [] |}.

(** [initSocket()] *)
Definition initSocket (w : SocketModule) : SocketModule * nat :=
  match socket w with
  | None =>
      ({| socket := Some (created w);
          created := S (created w);
          disconnected := disconnected w |},
       created w)
  | Some s => (w, s)
  end.

(** [getSocket()] *)
Definition getSocket (w : SocketModule) : SocketModule * nat :=
  match socket w with
  | None => initSocket w
  | Some s => (w, s)
  end.

(** [disconnectSocket()] *)
Definition disconnectSocket (w : SocketModule) : SocketModule :=
  match socket w with
  | Some s =>
      {| socket := None; created := created w; disconnected := s :: disconnected w |}
  | None => w
  end.

(** The calls of the module, and the sockets a sequence of calls returns. *)
Inductive Call : Type := CallInit | CallGet | CallDisconnect.

Fixpoint calls (w : SocketModule) (cs : list Call) : SocketModule * list nat :=
  match cs with
  | [] => (w, [])
  | CallInit :: cs' =>
      let '(w1, s) := initSocket w in
      let '(w2, ss) := calls w1 cs' in (w2, s :: ss)
  | CallGet :: cs' =>
      let '(w1, s) := getSocket w in
      let '(w2, ss) := calls w1 cs' in (w2, s :: ss)
  | CallDisconnect :: cs' => calls (disconnectSocket w) cs'
  end.

(** What the chat page holds when a handler runs: the selected user
    [{ userId, username }] and whether [socket] is set. *)
Record ChatPage : Type := mkChatPage {
  selectedUser : option (string * string);
  has_socket : bool;
}.

(** [socket.emit(name, payload)] *)
Record Emit : Type := mkEmit { name : string; payload : Js.value }.

(** [handleSendMessage(message)] of the chat page *)
Definition handleSendMessage (page : ChatPage) (message : string) : list Emit :=
  match selectedUser page, has_socket page with
  | Some (userId, _), true =>
      [ {| name := "send-message";
           payload := Js.VObj [("recipientId", Js.VStr userId);
                               ("message", Js.VStr message)] |} ]
  | _, _ => []
  end.

(** [handleTyping(isTyping)] of the chat page *)
Definition handleTyping (page : ChatPage) (isTyping : bool) : list Emit :=
  match selectedUser page, has_socket page with
  | Some (userId, _), true =>
      [ {| name := "typing";
           payload := Js.VObj [("recipientId", Js.VStr userId);
                               ("isTyping", Js.VBool isTyping)] |} ]
  | _, _ => []
  end.

(** [handleSubmit(e)] of the chat window, with [message] the text of the
    input: the events emitted and the text the input holds afterwards. *)
Definition handleSubmit (page : ChatPage) (message : string)
  : list Emit * string :=
  if String.eqb (JsString.trim message) "" then ([], message)
  else ((handleSendMessage page (JsString.trim message)
         ++ handleTyping page false)%list, "").

End Client.

(** ** Vocabulary of the further properties *)

(** A run all of whose events satisfy [P] in the state they arrive in. *)
Fixpoint run_where (P : State → Event → Prop) (σ : State) (evs : list Event)
  : Prop :=
  match evs with
  | [] => True
  | ev :: evs' =>
      P σ ev
      ∧ match outcome (step σ ev) with
        | Returned => run_where P (st (step σ ev)) evs'
        | Thrown => True
        end
  end.

(** A registration whose name arrives trimmed, as the registration page
    sends it. *)
Definition trimmed_registration (σ : State) (ev : Event) : Prop :=
  match ev with
  | Register _ (Js.VStr name) => JsString.trim name = name
  | _ => True
  end.

(** A string of ASCII characters. *)
Definition ascii_string (s : string) : bool :=
  JsString.all_chars (λ c, (N_of_ascii c <? 128)%N) s.

(** A registration whose name is an ASCII string. *)
Definition ascii_registration (σ : State) (ev : Event) : Prop :=
  match ev with
  | Register _ (Js.VStr name) => ascii_string name = true
  | _ => True
  end.

(** No two registered users have the same display name up to case. *)
Definition names_distinct (σ : State) : Prop :=
  ∀ uid1 uid2 u1 u2,
    OrdMap.get uid1 (users σ) = Some u1 →
    OrdMap.get uid2 (users σ) = Some u2 →
    JsString.toLowerCase (User.username u1) = JsString.toLowerCase (User.username u2) →
    uid1 = uid2.

(** Every stored display name has at least two characters and no white
    space at either end. *)
Definition names_valid (σ : State) : Prop :=
  ∀ uid u, OrdMap.get uid (users σ) = Some u →
           (2 ≤ String.length (User.username u))%nat
           ∧ JsString.trim (User.username u) = User.username u.

(** Every stored message is filed under the key of its own sender and
    recipient, who are registered, and has a trimmed body. *)
Definition messages_filed (σ : State) : Prop :=
  ∀ k m, m ∈ conversation σ k →
         k = getConversationId (Js.VStr (Message.senderId m))
                               (Js.VStr (Message.recipientId m))
         ∧ is_Some (OrdMap.get (Message.senderId m) (users σ))
         ∧ is_Some (OrdMap.get (Message.recipientId m) (users σ))
         ∧ JsString.trim (Message.message m) = Message.message m.

(** The event arrived without a payload that can be destructured. *)
Definition no_payload (payload : Js.value) : Prop :=
  payload = Js.VUndefined ∨ payload = Js.VNull.

(** The event is not a registration that draws the identifier [uid]. *)
Definition keeps_user (uid : string) (ev : Event) : Prop :=
  match ev with
  | Register clk _ => uid ≠ fresh_id "user" clk
  | _ => True
  end.

Definition is_message_sent (e : Emission) : bool :=
  match event e with EvMessageSent _ => true | _ => false end.

(** Two readings of a registry entry that agree on the fields written at
    registration. *)
Definition same_profile (o o' : option User.t) : Prop :=
  match o, o' with
  | Some u, Some u' =>
      User.username u' = User.username u ∧ User.createdAt u' = User.createdAt u
  | None, None => True
  | _, _ => False
  end.

(** The number of message-sent events in an output. *)
Definition count_sent (es : list Emission) : nat :=
  length (List.filter is_message_sent es).

(** ** Further sample runs *)

Module Example.

(** alice's entry while she is offline, and bob's. *)
Definition alice_offline : User.t :=
  {| User.username := "alice"; User.socketId := None; User.online := false;
     User.createdAt := "2023-11-14T22:13:20.000Z" |}.

Definition bob_offline : User.t :=
  {| User.username := "bob"; User.socketId := None; User.online := false;
     User.createdAt := "2023-11-14T22:13:20.001Z" |}.

(** bob's entry while he is logged in on [s2]. *)
Definition bob_on_s2 : User.t :=
  {| User.username := "bob"; User.socketId := Some "s2"; User.online := true;
     User.createdAt := "2023-11-14T22:13:20.001Z" |}.

(** alice logs in on [s1] and logs out. *)
Definition in_and_out : list Event :=
  [UserLogin "s1" (Sample.login_payload Sample.alice); Logout "s1"].

(** alice is logged in on [s1] and bob on [s2]. *)
Definition both_online : list Event :=
  Sample.alice_online ++ [UserLogin "s2" (Sample.login_payload Sample.bob)].

(** alice is logged in on [s1] and on [s2]. *)
Definition alice_twice : list Event :=
  Sample.alice_online ++ [UserLogin "s2" (Sample.login_payload Sample.alice)].

(** The first message of [Sample.two_messages]. *)
Definition first_message : Message.t :=
  {| Message.id := "msg_1700000000001_k3j9x0q1z";
     Message.senderId := Sample.alice;
     Message.senderName := "alice";
     Message.recipientId := Sample.bob;
     Message.recipientName := "bob";
     Message.message := "hi";
     Message.timestamp := "2023-11-14T22:13:20.001Z" |}.

(** A get-chat-history payload whose otherUserId is [{ toString: 1 }]. *)
Definition unprintable_request : Js.value :=
  Js.VObj [("otherUserId", Js.VObj [("toString", Js.VNum 1)])].

(** The typing event the form emits after the message. *)
Definition typing_stopped : Client.Emit :=
  {| Client.name := "typing";
     Client.payload := Sample.typing_payload Sample.bob false |}.

(** A send-message payload without a message. *)
Definition no_message : Js.value :=
  Js.VObj [("recipientId", Js.VStr Sample.bob)].

(** The chat page with bob selected, and the event its form emits for the
    text " hi ". *)
Definition page : Client.ChatPage :=
  {| Client.selectedUser := Some (Sample.bob, "bob"); Client.has_socket := true |}.

Definition hi_emit : Client.Emit :=
  {| Client.name := "send-message";
     Client.payload := Sample.message_payload (Js.VStr Sample.bob) (Js.VStr "hi") |}.

End Example.

(** ** Lemmas on the insertion-ordered map *)

Section ordmap_lemmas.
Context {V : Type}.
Implicit Types (m : OrdMap.t V) (k : string) (v : V).

Lemma ordmap_get_set_eq m k v : OrdMap.get k (OrdMap.set k v m) = Some v.
Proof.
  induction m as [|[k' v'] m IH]; simpl.
  - by rewrite String.eqb_refl.
  - destruct (String.eqb k' k) eqn:E; simpl.
    + by rewrite String.eqb_refl.
    + by rewrite E.
Qed.

Lemma ordmap_get_set_ne m k k' v :
  k ≠ k' → OrdMap.get k' (OrdMap.set k v m) = OrdMap.get k' m.
Proof.
  intros Hne. induction m as [|[k0 v0] m IH]; simpl.
  - by apply String.eqb_neq in Hne as ->.
  - destruct (String.eqb k0 k) eqn:E; simpl.
    + apply String.eqb_eq in E as ->.
      by apply String.eqb_neq in Hne as ->.
    + by rewrite IH.
Qed.

Lemma ordmap_get_set m k k' v :
  OrdMap.get k' (OrdMap.set k v m)
  = if decide (k = k') then Some v else OrdMap.get k' m.
Proof.
  case_decide as E.
  - subst. apply ordmap_get_set_eq.
  - by apply ordmap_get_set_ne.
Qed.

End ordmap_lemmas.

(** ** The invariant of the reachable states *)

Lemma truthy_id_Some o s : truthy_id o = Some s ↔ o = Some s ∧ s ≠ "".
Proof.
  unfold truthy_id. destruct o as [s'|]; [|by split; [|intros [? _]]].
  destruct (String.eqb_spec s' "") as [->|Hne].
  - split; [done|]. by intros [[= <-] ?].
  - split; [by intros [= <-]|]. by intros [[= <-] _].
Qed.

Lemma truthy_id_None o : truthy_id o = None ↔ o = None ∨ o = Some "".
Proof.
  unfold truthy_id. destruct o as [s'|]; [|by split; [left|]].
  destruct (String.eqb_spec s' "") as [->|Hne].
  - split; [by right|done].
  - split; [done|]. by intros [|[= ->]].
Qed.

Lemma users_get_Some σ key k u :
  users_get σ key = Some (k, u) ↔ key = Js.VStr k ∧ OrdMap.get k (users σ) = Some u.
Proof.
  split.
  - destruct key; try done. simpl.
    destruct (OrdMap.get s (users σ)) eqn:E; simpl; [|done].
    by intros [= -> ->].
  - intros [-> Hu]. simpl. by rewrite Hu.
Qed.

Lemma Inv_initial : Inv initial.
Proof. split; simpl; intros; simplify_eq; by rewrite ?lookup_empty in *. Qed.

Lemma Inv_register clk username σ : Inv σ → Inv (register clk username σ).1.
Proof.
  intros [H1 H2 H3]. unfold register.
  repeat (case_match; simpl; try done).
  split; simpl.
  - intros uid u. rewrite ordmap_get_set. case_decide; [|by eauto].
    subst. by intros _.
  - intros c uid Hc. rewrite ordmap_get_set. case_decide; [by eexists|by eauto].
  - intros uid u. rewrite ordmap_get_set. case_decide; [|by eauto].
    intros [= <-]. simpl. naive_solver.
Qed.

Lemma Inv_user_login c payload σ : Inv σ → Inv (st (on_user_login c payload σ)).
Proof.
  intros [H1 H2 H3]. unfold on_user_login.
  repeat (case_match; simpl; try done).
  match goal with H : users_get _ _ = Some _ |- _ =>
    apply users_get_Some in H as [-> Hu] end.
  split; simpl.
  - intros uid u. rewrite ordmap_get_set. case_decide; [|by eauto].
    subst. intros _. by eapply H1.
  - intros c' uid. rewrite ordmap_get_set, lookup_insert.
    repeat case_decide; naive_solver.
  - intros uid u. rewrite ordmap_get_set. case_decide; [|by eauto].
    intros [= <-]. simpl. naive_solver.
Qed.

Lemma on_logout_disconnect c σ : on_logout c σ = on_disconnect c σ.
Proof. reflexivity. Qed.

Lemma Inv_disconnect c σ : Inv σ → Inv (st (on_disconnect c σ)).
Proof.
  intros [H1 H2 H3]. unfold on_disconnect.
  repeat (case_match; simpl; try done).
  - split; simpl.
    + intros uid u. rewrite ordmap_get_set. case_decide; [|by eauto].
      subst. intros _. by eapply H1.
    + intros c' uid. rewrite ordmap_get_set, lookup_delete.
      repeat case_decide; naive_solver.
    + intros uid u. rewrite ordmap_get_set. case_decide; [|by eauto].
      intros [= <-]. simpl. naive_solver.
  - split; simpl; [done| |done].
    intros c' uid. rewrite lookup_delete. case_decide; naive_solver.
  - split; simpl; [done| |done].
    intros c' uid. rewrite lookup_delete. case_decide; naive_solver.
Qed.

Lemma Inv_push_message cid m σ : Inv σ → Inv (push_message cid m σ).
Proof. by intros [H1 H2 H3]. Qed.

Lemma Inv_send_message c clk payload σ :
  Inv σ → Inv (st (on_send_message c clk payload σ)).
Proof.
  intros HI. unfold on_send_message.
  repeat (case_match; simpl; try done); by apply Inv_push_message.
Qed.

Lemma typing_state c payload σ : st (on_typing c payload σ) = σ.
Proof. unfold on_typing. by repeat (case_match; simpl; try done). Qed.

Lemma get_chat_history_state c payload σ : st (on_get_chat_history c payload σ) = σ.
Proof. unfold on_get_chat_history. by repeat (case_match; simpl; try done). Qed.

Lemma Inv_step σ ev : Inv σ → Inv (st (step σ ev)).
Proof.
  intros HI. destruct ev; simpl.
  - by apply Inv_register.
  - by apply Inv_user_login.
  - by rewrite get_chat_history_state.
  - by apply Inv_send_message.
  - by rewrite typing_state.
  - by apply Inv_disconnect.
  - rewrite on_logout_disconnect. by apply Inv_disconnect.
Qed.

Lemma Inv_run evs : ∀ σ, Inv σ → Inv (run σ evs).
Proof.
  induction evs as [|ev evs IH]; intros σ HI; simpl; [done|].
  destruct (outcome (step σ ev)); [apply IH|]; by apply Inv_step.
Qed.

Lemma reachable_Inv σ : reachable σ → Inv σ.
Proof. intros [evs ->]. apply Inv_run, Inv_initial. Qed.

(** ** Runs with one session per user *)

Lemma SessionInv_initial : SessionInv initial.
Proof. split; [apply Inv_initial|]. by intros. Qed.

Lemma SessionInv_register clk username σ :
  SessionInv σ → OrdMap.get (fresh_id "user" clk) (users σ) = None →
  SessionInv (register clk username σ).1.
Proof.
  intros [HI HB] Hfresh. split; [by apply Inv_register|].
  unfold register. repeat (case_match; simpl; try done).
  intros uid u c. rewrite ordmap_get_set. case_decide as E; [|by eauto].
  subst uid. intros [= <-]. simpl. split; [done|].
  intros [u' Hu']%(inv_bound_registered σ HI). congruence.
Qed.

Lemma SessionInv_user_login c payload σ :
  SessionInv σ → single_session σ (UserLogin c payload) →
  SessionInv (st (on_user_login c payload σ)).
Proof.
  intros [HI HB] [Hfree Hoff]. split; [by apply Inv_user_login|].
  unfold on_user_login.
  destruct (Js.destructure payload "userId") as [userId|] eqn:Hp; [|done].
  destruct (users_get σ userId) as [[uid u]|] eqn:Hu; [|done].
  pose proof (Hoff _ _ _ eq_refl Hu) as Hoffline.
  apply users_get_Some in Hu as [-> Hu].
  assert (Hnone : User.socketId u = None).
  { destruct (User.socketId u) eqn:E; [|done].
    assert (User.online u = true) by (apply (inv_online_socket σ HI uid u Hu); congruence).
    congruence. }
  simpl. intros uid' u' c'. rewrite ordmap_get_set, lookup_insert.
  case_decide as E1; case_decide as E2; subst.
  - intros [= <-]. simpl. done.
  - intros [= <-]. simpl. split; [congruence|].
    intros Hc'. apply (HB _ _ _ Hu) in Hc'. congruence.
  - intros Hu'. split; [|congruence].
    intros Hc'%(HB _ _ _ Hu'). congruence.
  - apply HB.
Qed.

Lemma SessionInv_disconnect c σ :
  SessionInv σ → SessionInv (st (on_disconnect c σ)).
Proof.
  intros [HI HB]. split; [by apply Inv_disconnect|].
  unfold on_disconnect.
  destruct (truthy_id (connections σ !! c)) as [uid|] eqn:Hc.
  - apply truthy_id_Some in Hc as [Hc Hne].
    destruct (inv_bound_registered σ HI _ _ Hc) as [u Hu]. rewrite Hu. simpl.
    intros uid' u' c'. rewrite ordmap_get_set, lookup_delete.
    case_decide as E1; case_decide as E2; subst.
    + intros [= <-]. simpl. done.
    + intros [= <-]. simpl. split; [done|].
      intros Hc'. apply (HB _ _ _ Hu) in Hc'. apply (HB _ _ _ Hu) in Hc. congruence.
    + intros Hu'. split; [|done]. intros Hc'%(HB _ _ _ Hu'). congruence.
    + apply HB.
  - simpl. intros uid' u' c' Hu'. rewrite lookup_delete. case_decide as E; [|by apply HB].
    subst. split; [|done]. intros Hc'%(HB _ _ _ Hu').
    apply truthy_id_None in Hc as [Hc|Hc]; [congruence|].
    rewrite Hc in Hc'. injection Hc' as <-. by apply (inv_key_truthy σ HI) in Hu'.
Qed.

Lemma SessionInv_step σ ev : SessionInv σ → single_session σ ev → SessionInv (st (step σ ev)).
Proof.
  intros HJ Hev. destruct ev; simpl.
  - by apply SessionInv_register.
  - by apply SessionInv_user_login.
  - by rewrite get_chat_history_state.
  - destruct HJ as [HI HB]. split; [by apply Inv_send_message|].
    unfold on_send_message. by repeat (case_match; simpl; try done).
  - by rewrite typing_state.
  - by apply SessionInv_disconnect.
  - rewrite on_logout_disconnect. by apply SessionInv_disconnect.
Qed.

Lemma SessionInv_run evs : ∀ σ, SessionInv σ → single_session_run σ evs → SessionInv (run σ evs).
Proof.
  induction evs as [|ev evs IH]; intros σ HJ Hrun; simpl; [done|].
  destruct Hrun as [Hev Hrest].
  destruct (outcome (step σ ev)); [apply IH; [|done]|]; by apply SessionInv_step.
Qed.

Lemma SessionInv_synchronised σ : SessionInv σ → presence_synchronised σ.
Proof.
  intros [HI HB]. split; [exact (inv_online_socket σ HI)|].
  intros uid u Hu. split.
  - destruct (User.socketId u) as [c|] eqn:E; [|done].
    intros _. exists c. by apply (HB _ _ _ Hu).
  - intros [c Hc]. apply (HB _ _ _ Hu) in Hc. congruence.
Qed.

(** ** Presence: online flag, connection handle and connection map *)

(** C1, as stated, fails: after alice logs in on two channels and the
    first one closes, she is offline with a null handle while the second
    channel is still bound to her in [connections]. *)
Lemma C1_double_login_desynchronises :
  reachable (run initial Sample.double_login)
  ∧ ¬ presence_synchronised (run initial Sample.double_login).
Proof.
  split; [by eexists|].
  intros [_ Hbound].
  specialize (Hbound Sample.alice
    {| User.username := "alice"; User.socketId := None; User.online := false;
       User.createdAt := "2023-11-14T22:13:20.000Z" |} eq_refl).
  destruct Hbound as [_ Hbound]. apply Hbound; [|done].
  exists "s2". by vm_compute.
Qed.

(** C1 (amended): in every reachable state, for every registered user, the
    online flag is true if and only if the connection handle is non-null;
    and in a run where every login arrives on an unbound channel for a
    user who is offline (and registration identifiers are new), both hold
    if and only if [connections] binds a channel to the user. *)
Theorem C1_presence evs :
  online_iff_handle (run initial evs)
  ∧ (single_session_run initial evs → presence_synchronised (run initial evs)).
Proof.
  split.
  - exact (inv_online_socket _ (Inv_run evs initial Inv_initial)).
  - intros Hrun. apply SessionInv_synchronised, SessionInv_run; [|exact Hrun].
    apply SessionInv_initial.
Qed.

Lemma C1_presence_witness :
  presence_synchronised (run initial Sample.separate_logins).
Proof.
  refine (proj2 (C1_presence Sample.separate_logins) _).
  vm_compute.
  repeat split; intros userId uid u [= <-] [= <- <-]; reflexivity.
Defined.

(** ** Logging in from a second channel *)

(** C10: when a user bound to channel [c1] logs in from a second channel
    [c2], the login succeeds; the handle becomes [c2] and [c1] stays bound
    to the user, so events from [c1] still resolve to the user; when [c1]
    then disconnects or logs out, the user is marked offline with a null
    handle although [c2] is still bound to the user. *)
Theorem C10_second_login σ c1 c2 uid payload :
  reachable σ →
  c1 ≠ c2 →
  connections σ !! c1 = Some uid →
  Js.destructure payload "userId" = Some (Js.VStr uid) →
  let r := on_user_login c2 payload σ in
  let σ1 := st r in
  (outcome r = Returned
   ∧ ∃ name, out r !! 0%nat = Some (emit (ToSocket c2) (EvLoginSuccess uid name)))
  ∧ (∃ u1, OrdMap.get uid (users σ1) = Some u1
           ∧ User.socketId u1 = Some c2 ∧ User.online u1 = true)
  ∧ connections σ1 !! c1 = Some uid
  ∧ connections σ1 !! c2 = Some uid
  ∧ truthy_id (connections σ1 !! c1) = Some uid
  ∧ ∀ handler, handler = on_disconnect ∨ handler = on_logout →
      let σ2 := st (handler c1 σ1) in
      (∃ u2, OrdMap.get uid (users σ2) = Some u2
             ∧ User.socketId u2 = None ∧ User.online u2 = false)
      ∧ connections σ2 !! c1 = None
      ∧ connections σ2 !! c2 = Some uid.
Proof.
  intros [Hkey Hreg _]%reachable_Inv Hne Hc1 Hpayload.
  destruct (Hreg _ _ Hc1) as [u Hu].
  assert (Htruthy : uid ≠ "") by eauto.
  assert (Hlogin : users_get σ (Js.VStr uid) = Some (uid, u))
    by (by apply users_get_Some).
  unfold on_user_login. rewrite Hpayload, Hlogin. simpl.
  rewrite ordmap_get_set_eq, lookup_insert_eq, lookup_insert_ne, Hc1 by done.
  assert (Hres : truthy_id (Some uid) = Some uid) by (by apply truthy_id_Some).
  split; [split; [done|by eexists]|].
  split; [by eexists|].
  do 3 (split; [done|]).
  intros handler Hhandler.
  assert (handler = on_disconnect) as -> by (by destruct Hhandler as [-> | ->]).
  unfold on_disconnect. simpl.
  rewrite lookup_insert_ne, Hc1, Hres by done. simpl.
  rewrite !ordmap_get_set_eq. simpl.
  rewrite ordmap_get_set_eq, lookup_delete_eq, lookup_delete_ne, lookup_insert_eq
    by done.
  split; [by eexists|done].
Qed.

Lemma C10_second_login_witness :
  connections
    (st (on_user_login "s2" (Sample.login_payload Sample.alice)
           (run initial Sample.alice_online))) !! "s1"
  = Some Sample.alice.
Proof.
  refine (proj1 (proj2 (proj2
    (C10_second_login (run initial Sample.alice_online) "s1" "s2" Sample.alice
       (Sample.login_payload Sample.alice) _ _ _ _)))).
  - exists Sample.alice_online. reflexivity.
  - discriminate.
  - vm_compute. reflexivity.
  - reflexivity.
Defined.

(** ** Conversation keys and history *)

(** On two strings the key is the smaller one, an underscore, the larger
    one. *)
Lemma getConversationId_strings a b :
  getConversationId (Js.VStr a) (Js.VStr b)
  = if String.leb a b then a +:+ "_" +:+ b else b +:+ "_" +:+ a.
Proof.
  unfold getConversationId. simpl. unfold Js.string_of. simpl.
  by destruct (String.leb a b).
Qed.

Lemma getConversationId_comm a b :
  getConversationId (Js.VStr a) (Js.VStr b) = getConversationId (Js.VStr b) (Js.VStr a).
Proof.
  rewrite !getConversationId_strings.
  destruct (String.leb a b) eqn:Hab, (String.leb b a) eqn:Hba; try done.
  - by rewrite (String.leb_antisym _ _ Hab Hba).
  - destruct (String.leb_total a b); congruence.
Qed.

(** C7: the history of a pair does not depend on the order in which the
    two identifiers are given, and a message stored under (A, B) goes to
    the entry a message stored under (B, A) goes to. *)
Theorem C7_history_symmetric σ (a b : string) (limit : option Z) :
  getChatHistory σ (Js.VStr a) (Js.VStr b) limit
  = getChatHistory σ (Js.VStr b) (Js.VStr a) limit
  ∧ getConversationId (Js.VStr a) (Js.VStr b)
    = getConversationId (Js.VStr b) (Js.VStr a)
  ∧ ∀ m, push_message (getConversationId (Js.VStr a) (Js.VStr b)) m σ
         = push_message (getConversationId (Js.VStr b) (Js.VStr a)) m σ.
Proof.
  unfold getChatHistory. by rewrite (getConversationId_comm a b).
Qed.

Lemma last_n_suffix {A} (n : nat) (l : list A) :
  ∃ older, l = (older ++ last_n n l)%list
           ∧ length (last_n n l) = Nat.min n (length l).
Proof.
  exists (take (length l - n) l). unfold last_n. split.
  - by rewrite take_drop.
  - rewrite length_drop. lia.
Qed.

Lemma slice_positive {A} (n : Z) (l : list A) :
  0 < n → Js.slice (- n) l = last_n (Z.to_nat n) l.
Proof.
  intros Hn. unfold Js.slice, last_n.
  destruct (Z.ltb_spec (- n) 0); [|lia]. f_equal. lia.
Qed.

Lemma slice_zero {A} (l : list A) : Js.slice (- 0) l = l.
Proof. unfold Js.slice. simpl. by rewrite Z.min_l by lia. Qed.

Lemma slice_negative {A} (n : Z) (l : list A) :
  n < 0 → Js.slice (- n) l = drop (Z.to_nat (- n)) l.
Proof.
  intros Hn. unfold Js.slice.
  destruct (Z.ltb_spec (- n) 0); [lia|].
  destruct (Z.le_ge_cases (- n) (Z.of_nat (length l))).
  - by rewrite Z.min_l.
  - rewrite Z.min_r, Nat2Z.id by done.
    rewrite !drop_ge; [done|lia|lia].
Qed.

(** C3, as stated, fails for a non-positive limit: with limit -1 the
    first message is dropped where limit 50 returns both, and with limit 0
    all 51 messages are returned where limit 50 returns 50 of them. *)
Lemma C3_non_positive_limit_is_not_50 :
  getChatHistory (run initial Sample.two_messages)
    (Js.VStr Sample.alice) (Js.VStr Sample.bob) (Some (-1))
  ≠ getChatHistory (run initial Sample.two_messages)
      (Js.VStr Sample.alice) (Js.VStr Sample.bob) (Some 50)
  ∧ length (getChatHistory (run initial Sample.fifty_one_messages)
              (Js.VStr Sample.alice) (Js.VStr Sample.bob) (Some 0))
    ≠ length (getChatHistory (run initial Sample.fifty_one_messages)
                (Js.VStr Sample.alice) (Js.VStr Sample.bob) (Some 50)).
Proof.
  split.
  - intros H. apply (f_equal length) in H. vm_compute in H. discriminate.
  - vm_compute. discriminate.
Qed.

(** C3 (amended): [history] returns the last [limit] messages of the
    pair's conversation, in insertion order, when [limit] is a positive
    integer; a missing limit is 50; when there is no conversation the
    result is empty. A limit of 0 returns the whole conversation and a negative
    limit [-k] returns the conversation without its first [k] messages. *)
Theorem C3_history σ (user1 user2 : Js.value) :
  let history := conversation σ (getConversationId user1 user2) in
  getChatHistory σ user1 user2 None = getChatHistory σ user1 user2 (Some 50)
  ∧ (∀ n, 0 < n →
       getChatHistory σ user1 user2 (Some n) = last_n (Z.to_nat n) history)
  ∧ (messages σ !! getConversationId user1 user2 = None →
       ∀ limit, getChatHistory σ user1 user2 limit = [])
  ∧ getChatHistory σ user1 user2 (Some 0) = history
  ∧ (∀ n, n < 0 →
       getChatHistory σ user1 user2 (Some n) = drop (Z.to_nat (- n)) history).
Proof.
  intros history. unfold getChatHistory. simpl. fold history.
  split; [done|]. split; [by intros; apply slice_positive|].
  split.
  { intros Hnone limit. subst history. unfold conversation. rewrite Hnone.
    unfold Js.slice. simpl. by rewrite drop_nil. }
  split; [apply slice_zero|by intros; apply slice_negative].
Qed.

Lemma C3_history_witness :
  getChatHistory (run initial Sample.two_messages)
    (Js.VStr Sample.alice) (Js.VStr Sample.bob) (Some 1)
  = last_n 1 (conversation (run initial Sample.two_messages)
                (getConversationId (Js.VStr Sample.alice) (Js.VStr Sample.bob)))
  ∧ getChatHistory initial (Js.VStr Sample.alice) (Js.VStr Sample.bob) (Some 3) = []
  ∧ getChatHistory (run initial Sample.two_messages)
      (Js.VStr Sample.alice) (Js.VStr Sample.bob) (Some (-1))
    = drop 1 (conversation (run initial Sample.two_messages)
                (getConversationId (Js.VStr Sample.alice) (Js.VStr Sample.bob))).
Proof.
  split; [|split].
  - refine (proj1 (proj2
      (C3_history (run initial Sample.two_messages)
         (Js.VStr Sample.alice) (Js.VStr Sample.bob))) 1 _).
    reflexivity.
  - refine (proj1 (proj2 (proj2
      (C3_history initial (Js.VStr Sample.alice) (Js.VStr Sample.bob))))
      _ (Some 3)).
    reflexivity.
  - refine (proj2 (proj2 (proj2 (proj2
      (C3_history (run initial Sample.two_messages)
         (Js.VStr Sample.alice) (Js.VStr Sample.bob))))) (-1) _).
    reflexivity.
Defined.

(** ** Identifiers allocated by registration *)

Lemma all_chars_String p c s :
  JsString.all_chars p (String c s) = p c && JsString.all_chars p s.
Proof. reflexivity. Qed.

Lemma is_digit_base36 c : JsString.is_digit c = true → JsString.is_base36 c = true.
Proof. unfold JsString.is_base36. by intros ->. Qed.

Lemma all_digits_base36 s :
  JsString.all_chars JsString.is_digit s = true →
  JsString.all_chars JsString.is_base36 s = true.
Proof.
  induction s as [|c s IH]; [done|]. rewrite !all_chars_String.
  intros [Hc Hs]%andb_prop. by rewrite (is_digit_base36 c Hc), IH.
Qed.

Lemma string_app_cons c (s1 s2 : string) :
  String c s1 +:+ s2 = String c (s1 +:+ s2).
Proof. reflexivity. Qed.

Lemma string_app_nil (s : string) : "" +:+ s = s.
Proof. reflexivity. Qed.

Lemma string_app_assoc (s1 s2 s3 : string) :
  (s1 +:+ s2) +:+ s3 = s1 +:+ s2 +:+ s3.
Proof.
  induction s1 as [|c s1 IH]; [done|].
  rewrite !string_app_cons. by f_equal.
Qed.

(** A string of base36 digits followed by an underscore is cut at that
    underscore in one way only. *)
Lemma underscore_cut p q s s' :
  JsString.all_chars JsString.is_base36 p = true →
  JsString.all_chars JsString.is_base36 q = true →
  p +:+ String "_" s = q +:+ String "_" s' →
  p = q ∧ s = s'.
Proof.
  revert q. induction p as [|c p IH]; intros [|c' q];
    rewrite ?string_app_cons, ?string_app_nil, ?all_chars_String.
  - by intros _ _ [= ->].
  - intros _ [Hc _]%andb_prop [= <- _]. done.
  - intros [Hc _]%andb_prop _ [= -> _]. done.
  - intros [_ Hp]%andb_prop [_ Hq]%andb_prop [= -> Heq].
    by destruct (IH q Hp Hq Heq) as [-> ->].
Qed.

(** The first identifier of a key is determined by the key. *)
Lemma registration_id_cut a c s s' :
  registration_id a → registration_id c →
  a +:+ "_" +:+ s = c +:+ "_" +:+ s' →
  a = c ∧ s = s'.
Proof.
  intros (ts & rnd & -> & Hts & _ & Hrnd) (ts' & rnd' & -> & Hts' & _ & Hrnd').
  rewrite !string_app_assoc, !string_app_cons, !string_app_nil. intros [= Heq].
  apply underscore_cut in Heq as [-> Heq]; [|by apply all_digits_base36..].
  apply underscore_cut in Heq as [-> ->]; done.
Qed.

Lemma of_uint_digits d :
  JsString.all_chars JsString.is_digit (NilEmpty.string_of_uint d) = true.
Proof. induction d; simpl; try done; by rewrite all_chars_String. Qed.

Lemma of_N_digits n : JsString.all_chars JsString.is_digit (JsString.of_N n) = true.
Proof.
  unfold JsString.of_N, NilZero.string_of_uint.
  destruct (N.to_uint n); try done; apply of_uint_digits.
Qed.

(** The identifier [register] builds has the stated form whenever the
    random string carries nine base36 digits after its first two
    characters. *)
Lemma fresh_user_id_form clk :
  String.length (JsString.substr 2 9 (random_base36 clk)) = 9%nat →
  JsString.all_chars JsString.is_base36 (JsString.substr 2 9 (random_base36 clk)) = true →
  registration_id (fresh_id "user" clk).
Proof.
  intros Hlen Hchars. exists (JsString.of_N (date_now clk)), (JsString.substr 2 9 (random_base36 clk)).
  split; [done|]. split; [apply of_N_digits|done].
Qed.

Lemma same_pair_sorted a b c d :
  (if String.leb a b then (a, b) else (b, a))
  = (if String.leb c d then (c, d) else (d, c)) →
  same_pair a b c d.
Proof.
  unfold same_pair.
  destruct (String.leb a b), (String.leb c d); intros [= -> ->]; auto.
Qed.

Lemma getConversationId_inj a b c d :
  registration_id a → registration_id b →
  registration_id c → registration_id d →
  getConversationId (Js.VStr a) (Js.VStr b) = getConversationId (Js.VStr c) (Js.VStr d) →
  same_pair a b c d.
Proof.
  intros Ha Hb Hc Hd. rewrite !getConversationId_strings. intros Heq.
  apply same_pair_sorted.
  destruct (String.leb a b), (String.leb c d);
    apply registration_id_cut in Heq as [-> ->]; done.
Qed.

Lemma conversation_push_ne k k' m σ :
  k ≠ k' → conversation (push_message k m σ) k' = conversation σ k'.
Proof.
  intros Hne. unfold conversation, push_message. simpl.
  rewrite lookup_insert_ne by done.
  destruct (messages σ !! k); [done|by rewrite lookup_insert_ne].
Qed.

Lemma conversation_push_eq k m σ :
  conversation (push_message k m σ) k = (conversation σ k ++ [m])%list.
Proof.
  unfold conversation, push_message. simpl. rewrite lookup_insert_eq. simpl.
  destruct (messages σ !! k) eqn:E; [by rewrite E|by rewrite lookup_insert_eq].
Qed.

(** C4: two distinct unordered pairs of identifiers allocated by
    registration have distinct conversation keys, so a message stored for
    one pair is not in the history of the other. *)
Theorem C4_distinct_pairs_distinct_keys a b c d :
  registration_id a → registration_id b →
  registration_id c → registration_id d →
  ¬ same_pair a b c d →
  getConversationId (Js.VStr a) (Js.VStr b) ≠ getConversationId (Js.VStr c) (Js.VStr d)
  ∧ ∀ σ m limit,
      getChatHistory (push_message (getConversationId (Js.VStr a) (Js.VStr b)) m σ)
        (Js.VStr c) (Js.VStr d) limit
      = getChatHistory σ (Js.VStr c) (Js.VStr d) limit.
Proof.
  intros Ha Hb Hc Hd Hpair.
  assert (Hne : getConversationId (Js.VStr a) (Js.VStr b)
                ≠ getConversationId (Js.VStr c) (Js.VStr d)).
  { intros Heq. by apply Hpair, getConversationId_inj. }
  split; [done|]. intros σ m limit. unfold getChatHistory.
  by rewrite conversation_push_ne.
Qed.

(** ** Sending a message *)

Lemma destructure_defined payload name v name' :
  Js.destructure payload name = Some v →
  ∃ v', Js.destructure payload name' = Some v'.
Proof. destruct payload; simpl; intros; simplify_eq; by eexists. Qed.

(** A bound channel of a reachable state resolves to a registered user. *)
Lemma reachable_authenticated σ c sender :
  reachable σ → connections σ !! c = Some sender →
  truthy_id (connections σ !! c) = Some sender
  ∧ ∃ u, OrdMap.get sender (users σ) = Some u.
Proof.
  intros [Hkey Hreg _]%reachable_Inv Hc.
  destruct (Hreg _ _ Hc) as [u Hu]. split; [|by eexists].
  apply truthy_id_Some. split; [done|by eapply Hkey].
Qed.

(** C5: a send-message from an authenticated channel to a recipient that
    is not in the registry emits one error event, to the sender's channel,
    and nothing else; the registry, the connection map and the
    conversation store are left as they were, and so is the number of
    stored messages. *)
Theorem C5_unknown_recipient σ c clk payload sender recipientId :
  reachable σ →
  connections σ !! c = Some sender →
  Js.destructure payload "recipientId" = Some recipientId →
  users_get σ recipientId = None →
  let r := on_send_message c clk payload σ in
  out r = [emit (ToSocket c) (EvError "Recipient not found")]
  ∧ outcome r = Returned
  ∧ st r = σ
  ∧ totalMessages (st r) = totalMessages σ.
Proof.
  intros Hσ Hc Hrid Hunknown.
  destruct (reachable_authenticated σ c sender Hσ Hc) as [Hauth _].
  destruct (destructure_defined payload _ _ "message" Hrid) as [message Hmsg].
  unfold on_send_message. by rewrite Hrid, Hmsg, Hauth, Hunknown.
Qed.

Lemma last_slice_snoc {A} (n : Z) (l : list A) (x : A) :
  0 < n → last (Js.slice (- n) (l ++ [x])%list) = Some x.
Proof.
  intros Hn. rewrite slice_positive by done. unfold last_n.
  rewrite length_app. simpl.
  rewrite drop_app_le by lia. apply last_snoc.
Qed.

(** C6, at the failing input: alice is logged in on [s1] and bob is
    registered and offline; her send-message to bob carries no message;
    the handler throws at [message.trim()]: no message-sent reaches the
    sender, nothing is stored, and the history of the pair read afterwards
    is empty. *)
Theorem C6_missing_message_not_acknowledged :
  let σ := run initial Sample.alice_online in
  let r := on_send_message "s1" Sample.clk3
             (Js.VObj [("recipientId", Js.VStr Sample.bob)]) σ in
  connections σ !! "s1" = Some Sample.alice
  ∧ (∃ bob, OrdMap.get Sample.bob (users σ) = Some bob ∧ User.online bob = false)
  ∧ outcome r = Thrown
  ∧ out r = []
  ∧ st r = σ
  ∧ getChatHistory (st r) (Js.VStr Sample.alice) (Js.VStr Sample.bob) None = [].
Proof. split; [by vm_compute|]. split; [by eexists|]. by vm_compute. Qed.

(** X28: when an authenticated sender sends a message that is a string
    to a registered recipient who is offline, the only emission is one
    message-sent to the sender's channel carrying the stored message,
    whose body is the trimmed input, and that message is the last element
    of the history of the pair read after the send. *)
Theorem send_message_offline σ c clk payload sender rid recipient body :
  reachable σ →
  connections σ !! c = Some sender →
  Js.destructure payload "recipientId" = Some (Js.VStr rid) →
  Js.destructure payload "message" = Some (Js.VStr body) →
  OrdMap.get rid (users σ) = Some recipient →
  User.online recipient = false →
  let r := on_send_message c clk payload σ in
  ∃ m, out r = [emit (ToSocket c) (EvMessageSent m)]
       ∧ outcome r = Returned
       ∧ Message.message m = JsString.trim body
       ∧ Message.senderId m = sender
       ∧ Message.recipientId m = rid
       ∧ last (getChatHistory (st r) (Js.VStr sender) (Js.VStr rid) None) = Some m
       ∧ last (getChatHistory (st r) (Js.VStr rid) (Js.VStr sender) None) = Some m.
Proof.
  intros Hσ Hc Hrid Hmsg Hrecipient Hoffline.
  destruct (reachable_authenticated σ c sender Hσ Hc) as [Hauth [u Hu]].
  assert (Hget : users_get σ (Js.VStr rid) = Some (rid, recipient))
    by (by apply users_get_Some).
  unfold on_send_message. rewrite Hrid, Hmsg, Hauth, Hget, Hu. simpl.
  rewrite Hoffline. simpl. eexists. split; [done|]. do 4 (split; [done|]).
  unfold getChatHistory. rewrite <- (getConversationId_comm sender rid).
  rewrite conversation_push_eq. simpl.
  split; by apply last_slice_snoc.
Qed.

(** ** Typing *)

Lemma run_typing l σ : run σ (typing_events l) = σ.
Proof.
  induction l as [|[c payload] l IH]; simpl; [done|].
  pose proof (typing_state c payload σ) as Hst.
  destruct (outcome (on_typing c payload σ)); rewrite Hst; [apply IH|done].
Qed.

(** C8: a typing event leaves the registry, the connection map and the
    conversation store as they were, so the history of every pair is the
    same after any number of typing events; it emits nothing, or one
    user-typing event to the handle of the recipient, and the latter only
    when the channel is bound to a sender and the recipient is online. *)
Theorem C8_typing_frame σ c payload :
  st (on_typing c payload σ) = σ
  ∧ (∀ l user1 user2 limit,
       getChatHistory (run σ (typing_events l)) user1 user2 limit
       = getChatHistory σ user1 user2 limit)
  ∧ (out (on_typing c payload σ) = []
     ∨ ∃ sender recipientId isTyping rid recipient room,
         out (on_typing c payload σ)
         = [emit (ToRoom room) (EvUserTyping sender isTyping)]
         ∧ Js.destructure payload "recipientId" = Some recipientId
         ∧ Js.destructure payload "isTyping" = Some isTyping
         ∧ truthy_id (connections σ !! c) = Some sender
         ∧ users_get σ recipientId = Some (rid, recipient)
         ∧ User.online recipient = true
         ∧ User.socketId recipient = Some room).
Proof.
  split; [apply typing_state|]. split; [by intros; rewrite run_typing|].
  unfold on_typing.
  destruct (Js.destructure payload "recipientId") as [recipientId|] eqn:Hr;
    [|by left].
  destruct (Js.destructure payload "isTyping") as [isTyping|] eqn:Ht; [|by left].
  destruct (truthy_id (connections σ !! c)) as [sender|] eqn:Hs; [|by left].
  destruct (users_get σ recipientId) as [[rid recipient]|] eqn:Hu; [|by left].
  destruct (User.online recipient) eqn:Hon; [|by left].
  destruct (truthy_id (User.socketId recipient)) as [room|] eqn:Hroom; [|by left].
  apply truthy_id_Some in Hroom as [Hroom _].
  right. by exists sender, recipientId, isTyping, rid, recipient, room.
Qed.

(** ** Registration *)

(** What [register] does, case by case. The comparison with the stored
    names uses the name as it was received, not its trimmed form. *)
Lemma register_cases clk username σ :
  match username with
  | Js.VStr name =>
      if decide (String.length (JsString.trim name) < 2)%nat
      then register clk username σ = (σ, InvalidName)
      else if name_exists σ name
      then register clk username σ = (σ, NameTaken)
      else ∃ σ', register clk username σ
                 = (σ', Registered (fresh_id "user" clk) (JsString.trim name))
                 ∧ OrdMap.get (fresh_id "user" clk) (users σ')
                   = Some {| User.username := JsString.trim name;
                             User.socketId := None;
                             User.online := false;
                             User.createdAt := iso_now clk |}
                 ∧ connections σ' = connections σ
                 ∧ messages σ' = messages σ
  | _ =>
      register clk username σ
      = (σ, if Js.truthy username then ServerError else InvalidName)
  end.
Proof.
  unfold register. destruct username as [| |b|n|name|fields]; simpl; try done.
  - by destruct b.
  - by destruct (n =? 0).
  - destruct (String.eqb_spec name "") as [->|Hne]; simpl; [done|].
    case_decide as Hlen.
    + by apply Nat.ltb_lt in Hlen as ->.
    + apply Nat.ltb_nlt in Hlen as ->.
      destruct (name_exists σ name); [done|].
      eexists. split; [done|]. simpl. by rewrite ordmap_get_set_eq.
Qed.

(** C2, at the failing input: with "alice" registered, the name "alice "
    (a trailing space) trims to "alice", which matches the stored name, yet
    the registration is accepted and a second user named "alice" is
    stored. *)
Theorem C2_trimmed_duplicate_is_accepted :
  let σ := run initial [Register Sample.clk1 (Js.VStr "alice")] in
  let r := register Sample.clk2 (Js.VStr "alice ") σ in
  (∃ u, OrdMap.get Sample.alice (users σ) = Some u
        ∧ JsString.toLowerCase (User.username u)
          = JsString.toLowerCase (JsString.trim "alice "))
  ∧ r.2 = Registered (fresh_id "user" Sample.clk2) "alice"
  ∧ map (λ kv, (kv.1, User.username kv.2)) (users r.1)
    = [(Sample.alice, "alice"); (fresh_id "user" Sample.clk2, "alice")].
Proof. split; [by eexists|]. by vm_compute. Qed.

(** ** Exceptions in the socket handlers *)

(** C9, at the failing inputs: a send-message whose payload has no
    [message] field, sent from an authenticated channel to a registered
    recipient, makes the handler throw without emitting an error event;
    and each handler that destructures its payload throws when the event
    is emitted without one. *)
Theorem C9_handlers_throw :
  (let r := on_send_message "s1" Sample.clk3
              (Js.VObj [("recipientId", Js.VStr Sample.bob)])
              (run initial Sample.alice_online) in
   outcome r = Thrown ∧ out r = [])
  ∧ ∀ c clk σ,
      outcome (on_user_login c Js.VUndefined σ) = Thrown
      ∧ outcome (on_get_chat_history c Js.VUndefined σ) = Thrown
      ∧ outcome (on_send_message c clk Js.VUndefined σ) = Thrown
      ∧ outcome (on_typing c Js.VUndefined σ) = Thrown.
Proof. split; [by vm_compute|done]. Qed.

(** In a reachable state every non-string [message] makes an otherwise
    valid send-message throw. *)
Lemma send_message_throws σ c clk payload sender rid recipient message :
  reachable σ →
  connections σ !! c = Some sender →
  Js.destructure payload "recipientId" = Some (Js.VStr rid) →
  Js.destructure payload "message" = Some message →
  OrdMap.get rid (users σ) = Some recipient →
  Js.call_trim message = None →
  on_send_message c clk payload σ = thrown σ [].
Proof.
  intros Hσ Hc Hrid Hmsg Hrecipient Htrim.
  destruct (reachable_authenticated σ c sender Hσ Hc) as [Hauth [u Hu]].
  assert (Hget : users_get σ (Js.VStr rid) = Some (rid, recipient))
    by (by apply users_get_Some).
  unfold on_send_message. by rewrite Hrid, Hmsg, Hauth, Hget, Hu, Htrim.
Qed.

(** ** The theorems at sample inputs *)

Lemma registration_id_alice : registration_id Sample.alice.
Proof. exists "1700000000000", "4fzyo82mv". repeat split; reflexivity. Defined.

Lemma registration_id_bob : registration_id Sample.bob.
Proof. exists "1700000000001", "k3j9x0q1z". repeat split; reflexivity. Defined.

Lemma registration_id_carol : registration_id Sample.carol.
Proof. exists "1700000000002", "z7y6x5w4v". repeat split; reflexivity. Defined.

Lemma C4_distinct_pairs_distinct_keys_witness :
  getConversationId (Js.VStr Sample.alice) (Js.VStr Sample.bob)
  ≠ getConversationId (Js.VStr Sample.carol) (Js.VStr Sample.alice).
Proof.
  refine (proj1 (C4_distinct_pairs_distinct_keys
    Sample.alice Sample.bob Sample.carol Sample.alice
    registration_id_alice registration_id_bob
    registration_id_carol registration_id_alice _)).
  intros [[H _]|[_ H]]; discriminate H.
Defined.

Lemma C5_unknown_recipient_witness :
  out (on_send_message "s1" Sample.clk3
         (Sample.message_payload (Js.VStr Sample.carol) (Js.VStr "hi"))
         (run initial Sample.alice_online))
  = [emit (ToSocket "s1") (EvError "Recipient not found")].
Proof.
  refine (proj1 (C5_unknown_recipient (run initial Sample.alice_online)
    "s1" Sample.clk3 _ Sample.alice (Js.VStr Sample.carol) _ _ _ _)).
  - exists Sample.alice_online. reflexivity.
  - vm_compute. reflexivity.
  - reflexivity.
  - reflexivity.
Defined.

Lemma send_message_offline_witness :
  ∃ m, out (on_send_message "s1" Sample.clk3
              (Sample.message_payload (Js.VStr Sample.bob) (Js.VStr " hi "))
              (run initial Sample.alice_online))
       = [emit (ToSocket "s1") (EvMessageSent m)]
       ∧ Message.message m = "hi".
Proof.
  destruct (send_message_offline (run initial Sample.alice_online)
    "s1" Sample.clk3
    (Sample.message_payload (Js.VStr Sample.bob) (Js.VStr " hi "))
    Sample.alice Sample.bob
    {| User.username := "bob"; User.socketId := None; User.online := false;
       User.createdAt := "2023-11-14T22:13:20.001Z" |} " hi ")
    as (m & Hout & _ & Hbody & _).
  - exists Sample.alice_online. reflexivity.
  - vm_compute. reflexivity.
  - reflexivity.
  - reflexivity.
  - reflexivity.
  - reflexivity.
  - exists m. split; [exact Hout|exact Hbody].
Defined.

(** ** The registry only grows *)

Section ordmap_keys_lemmas.
Context {V : Type}.
Implicit Types (m : OrdMap.t V) (k : string) (v : V).

Lemma ordmap_get_None_keys m k : OrdMap.get k m = None ↔ k ∉ ordmap_keys m.
Proof.
  induction m as [|[k' v'] m IH]; simpl.
  - split; [intros _; apply not_elem_of_nil|done].
  - rewrite not_elem_of_cons. destruct (String.eqb_spec k' k) as [->|Hne].
    + split; [done|]. by intros [? _].
    + rewrite IH. split; [by intros ?; split|by intros [_ ?]].
Qed.

Lemma ordmap_set_keys m k v :
  ordmap_keys (OrdMap.set k v m)
  = if OrdMap.get k m is Some _ then ordmap_keys m else (ordmap_keys m ++ [k])%list.
Proof.
  induction m as [|[k' v'] m IH]; simpl; [done|].
  destruct (String.eqb_spec k' k) as [->|Hne]; simpl; [done|].
  rewrite IH. by destruct (OrdMap.get k m).
Qed.

Lemma ordmap_set_keys_prefix m k v :
  ordmap_keys m `prefix_of` ordmap_keys (OrdMap.set k v m).
Proof.
  rewrite ordmap_set_keys. destruct (OrdMap.get k m); [done|].
  by apply prefix_app_r.
Qed.

Lemma ordmap_set_NoDup m k v :
  NoDup (ordmap_keys m) → NoDup (ordmap_keys (OrdMap.set k v m)).
Proof.
  intros Hm. rewrite ordmap_set_keys.
  destruct (OrdMap.get k m) eqn:E; [done|].
  apply NoDup_app. split; [done|]. split; [|apply NoDup_singleton].
  intros x Hx ->%list_elem_of_singleton.
  by apply ordmap_get_None_keys in E.
Qed.

Lemma ordmap_get_elem_of m k v :
  NoDup (ordmap_keys m) → (k, v) ∈ m ↔ OrdMap.get k m = Some v.
Proof.
  induction m as [|[k' v'] m IH]; simpl.
  - intros _. split; [by intros ?%elem_of_nil|done].
  - intros [Hk' Hm]%NoDup_cons. rewrite elem_of_cons.
    destruct (String.eqb_spec k' k) as [->|Hne].
    + split; [|by intros [= ->]; left].
      intros [[= ->]|Hin]; [done|]. exfalso. apply Hk'.
      apply (list_elem_of_fmap fst). by exists (k, v).
    + rewrite <- (IH Hm). split; [|by right].
      by intros [[= -> ->]|?].
Qed.

Lemma ordmap_set_same m k v : OrdMap.get k m = Some v → OrdMap.set k v m = m.
Proof.
  induction m as [|[k' v'] m IH]; simpl; [done|].
  destruct (String.eqb_spec k' k) as [->|Hne]; [by intros [= ->]|].
  intros Hk. by rewrite IH.
Qed.

Lemma ordmap_set_set m k v v' :
  OrdMap.set k v (OrdMap.set k v' m) = OrdMap.set k v m.
Proof.
  induction m as [|[k0 v0] m IH]; simpl.
  - by rewrite String.eqb_refl.
  - destruct (String.eqb k0 k) eqn:E; simpl.
    + by rewrite String.eqb_refl.
    + by rewrite E, IH.
Qed.

End ordmap_keys_lemmas.

(** A handler that throws has changed nothing. *)
Lemma step_thrown σ ev : outcome (step σ ev) = Thrown → st (step σ ev) = σ.
Proof.
  destruct ev; simpl; try done.
  - unfold on_user_login. by repeat (case_match; simpl; try done).
  - unfold on_get_chat_history. by repeat (case_match; simpl; try done).
  - unfold on_send_message. by repeat (case_match; simpl; try done).
  - unfold on_typing. by repeat (case_match; simpl; try done).
  - unfold on_disconnect. by repeat (case_match; simpl; try done).
  - unfold on_logout. by repeat (case_match; simpl; try done).
Qed.

(** The states of the runs are closed under one more event. *)
Lemma run_cons σ ev evs :
  run σ (ev :: evs)
  = match outcome (step σ ev) with
    | Returned => run (st (step σ ev)) evs
    | Thrown => st (step σ ev)
    end.
Proof. reflexivity. Qed.

Lemma run_snoc evs : ∀ σ0, ∃ evs',
  run σ0 evs = run σ0 evs'
  ∧ ∀ ev, run σ0 (evs' ++ [ev])%list = st (step (run σ0 evs') ev).
Proof.
  induction evs as [|ev0 evs IH]; intros σ0.
  - exists []. split; [done|]. intros ev.
    change (run σ0 [ev] = st (step σ0 ev)). rewrite run_cons.
    by destruct (outcome (step σ0 ev)).
  - rewrite run_cons. destruct (outcome (step σ0 ev0)) eqn:Ho.
    + destruct (IH (st (step σ0 ev0))) as (evs' & Heq & Hsnoc).
      exists (ev0 :: evs'). rewrite run_cons, Ho. split; [done|].
      intros ev. change ((ev0 :: evs') ++ [ev])%list with (ev0 :: (evs' ++ [ev]))%list.
      rewrite run_cons, Ho. apply Hsnoc.
    + exists []. split; [by apply step_thrown|].
      intros ev. change (run σ0 [ev] = st (step σ0 ev)). rewrite run_cons.
      by destruct (outcome (step σ0 ev)).
Qed.

Lemma reachable_step σ ev : reachable σ → reachable (st (step σ ev)).
Proof.
  intros [evs ->]. destruct (run_snoc evs initial) as (evs' & -> & Hsnoc).
  exists (evs' ++ [ev])%list. by rewrite Hsnoc.
Qed.

Lemma same_profile_refl o : same_profile o o.
Proof. by destruct o. Qed.

Lemma same_profile_trans o1 o2 o3 :
  same_profile o1 o2 → same_profile o2 o3 → same_profile o1 o3.
Proof.
  destruct o1, o2, o3; simpl; try done. intros [-> ->] [-> ->]. done.
Qed.

Lemma register_users clk username σ :
  users (register clk username σ).1 = users σ
  ∨ ∃ user, users (register clk username σ).1
            = OrdMap.set (fresh_id "user" clk) user (users σ).
Proof.
  unfold register. repeat (case_match; simpl; try by left). right. by eexists.
Qed.

(** What a step does to the entry of one user: it is left as it was, or
    its two presence fields are rewritten. *)
Lemma step_profile σ ev uid :
  keeps_user uid ev →
  same_profile (OrdMap.get uid (users σ)) (OrdMap.get uid (users (st (step σ ev)))).
Proof.
  intros Hkeep. destruct ev; simpl in *.
  - destruct (register_users clk username σ) as [->|[user ->]];
      [apply same_profile_refl|].
    rewrite ordmap_get_set_ne by done. apply same_profile_refl.
  - unfold on_user_login.
    destruct (Js.destructure payload "userId") as [userId|]; [|apply same_profile_refl].
    destruct (users_get σ userId) as [[k u]|] eqn:Hu; [|apply same_profile_refl].
    apply users_get_Some in Hu as [-> Hu]. simpl.
    rewrite ordmap_get_set. case_decide as E; [|apply same_profile_refl].
    subst. by rewrite Hu.
  - rewrite get_chat_history_state. apply same_profile_refl.
  - unfold on_send_message.
    repeat (case_match; simpl; try apply same_profile_refl).
  - rewrite typing_state. apply same_profile_refl.
  - unfold on_disconnect.
    destruct (truthy_id (connections σ !! socket_id)) as [k|]; [|apply same_profile_refl].
    destruct (OrdMap.get k (users σ)) as [u|] eqn:Hu; [|apply same_profile_refl].
    simpl. rewrite ordmap_get_set. case_decide as E; [|apply same_profile_refl].
    subst. by rewrite Hu.
  - unfold on_logout.
    destruct (truthy_id (connections σ !! socket_id)) as [k|]; [|apply same_profile_refl].
    destruct (OrdMap.get k (users σ)) as [u|] eqn:Hu; [|apply same_profile_refl].
    simpl. rewrite ordmap_get_set. case_decide as E; [|apply same_profile_refl].
    subst. by rewrite Hu.
Qed.

Lemma step_keys_prefix σ ev :
  ordmap_keys (users σ) `prefix_of` ordmap_keys (users (st (step σ ev))).
Proof.
  destruct ev; simpl.
  - destruct (register_users clk username σ) as [->|[user ->]];
      [done|apply ordmap_set_keys_prefix].
  - unfold on_user_login.
    repeat (case_match; simpl; try done). apply ordmap_set_keys_prefix.
  - by rewrite get_chat_history_state.
  - unfold on_send_message. by repeat (case_match; simpl; try done).
  - by rewrite typing_state.
  - unfold on_disconnect.
    repeat (case_match; simpl; try done). apply ordmap_set_keys_prefix.
  - unfold on_logout.
    repeat (case_match; simpl; try done). apply ordmap_set_keys_prefix.
Qed.

Lemma step_keys_NoDup σ ev :
  NoDup (ordmap_keys (users σ)) → NoDup (ordmap_keys (users (st (step σ ev)))).
Proof.
  intros Hσ. destruct ev; simpl.
  - destruct (register_users clk username σ) as [->|[user ->]];
      [done|by apply ordmap_set_NoDup].
  - unfold on_user_login.
    repeat (case_match; simpl; try done). by apply ordmap_set_NoDup.
  - by rewrite get_chat_history_state.
  - unfold on_send_message. by repeat (case_match; simpl; try done).
  - by rewrite typing_state.
  - unfold on_disconnect.
    repeat (case_match; simpl; try done). by apply ordmap_set_NoDup.
  - unfold on_logout.
    repeat (case_match; simpl; try done). by apply ordmap_set_NoDup.
Qed.

Lemma run_keys_NoDup evs : ∀ σ,
  NoDup (ordmap_keys (users σ)) → NoDup (ordmap_keys (users (run σ evs))).
Proof.
  induction evs as [|ev evs IH]; intros σ Hσ; simpl; [done|].
  destruct (outcome (step σ ev)); [apply IH|]; by apply step_keys_NoDup.
Qed.

Lemma reachable_keys_NoDup σ : reachable σ → NoDup (ordmap_keys (users σ)).
Proof. intros [evs ->]. apply run_keys_NoDup. simpl. apply NoDup_nil_2. Qed.

(** X1: no event removes or reorders registered users: the identifiers
    registered before a run are, in the same order, the first identifiers
    registered after it, and the count reported by the health check does
    not decrease. *)
Theorem registry_append_only σ evs :
  ordmap_keys (users σ) `prefix_of` ordmap_keys (users (run σ evs))
  ∧ (onlineUsers (health_check σ) ≤ onlineUsers (health_check (run σ evs)))%nat.
Proof.
  assert (H : ordmap_keys (users σ) `prefix_of` ordmap_keys (users (run σ evs))).
  { revert σ. induction evs as [|ev evs IH]; intros σ; simpl; [done|].
    destruct (outcome (step σ ev)).
    - etrans; [apply (step_keys_prefix σ ev)|apply IH].
    - apply step_keys_prefix. }
  split; [done|]. simpl. by apply prefix_length.
Qed.

(** X2: a registered user keeps the display name and the creation time
    through every run in which no registration draws the user's identifier
    again; only the presence fields change. *)
Theorem profile_immutable σ evs uid u :
  OrdMap.get uid (users σ) = Some u →
  run_where (λ _ ev, keeps_user uid ev) σ evs →
  ∃ u', OrdMap.get uid (users (run σ evs)) = Some u'
        ∧ User.username u' = User.username u
        ∧ User.createdAt u' = User.createdAt u.
Proof.
  intros Hu Hrun.
  assert (H : same_profile (OrdMap.get uid (users σ))
                           (OrdMap.get uid (users (run σ evs)))).
  { clear Hu. revert σ Hrun.
    induction evs as [|ev evs IH]; intros σ Hrun; simpl;
      [apply same_profile_refl|].
    destruct Hrun as [Hev Hrest].
    destruct (outcome (step σ ev)).
    - eapply same_profile_trans; [by apply step_profile|by apply IH].
    - by apply step_profile. }
  rewrite Hu in H. simpl in H.
  destruct (OrdMap.get uid (users (run σ evs))) as [u'|]; [|done].
  by exists u'.
Qed.

(** ** Display names *)

Lemma trimStart_head s :
  match JsString.trimStart s with
  | EmptyString => True
  | String c _ => JsString.is_white_space c = false
  end.
Proof.
  induction s as [|c s IH]; simpl; [done|].
  by destruct (JsString.is_white_space c) eqn:E; simpl; [|rewrite E].
Qed.

Lemma trimStart_fixed s :
  match s with
  | EmptyString => True
  | String c _ => JsString.is_white_space c = false
  end →
  JsString.trimStart s = s.
Proof. destruct s as [|c s]; simpl; [done|]. by intros ->. Qed.

Lemma trimEnd_head c s :
  JsString.is_white_space c = false →
  ∃ t, JsString.trimEnd (String c s) = String c t.
Proof.
  intros Hc. simpl. destruct (JsString.trimEnd s); [|by eexists].
  rewrite Hc. by eexists.
Qed.

Lemma trimEnd_idem s : JsString.trimEnd (JsString.trimEnd s) = JsString.trimEnd s.
Proof.
  induction s as [|c s IH]; simpl; [done|].
  destruct (JsString.trimEnd s) as [|d t] eqn:E.
  - destruct (JsString.is_white_space c) eqn:Hc; simpl; [done|by rewrite Hc].
  - simpl in *. by rewrite IH.
Qed.

(** [trim] leaves a trimmed string as it is. *)
Lemma trim_idem s : JsString.trim (JsString.trim s) = JsString.trim s.
Proof.
  unfold JsString.trim.
  rewrite (trimStart_fixed (JsString.trimEnd (JsString.trimStart s))).
  - apply trimEnd_idem.
  - pose proof (trimStart_head s) as Hhead.
    destruct (JsString.trimStart s) as [|c t]; [done|].
    by destruct (trimEnd_head c t Hhead) as [t' ->].
Qed.

Lemma ordmap_get_values {V} (m : OrdMap.t V) k v :
  OrdMap.get k m = Some v → In v (OrdMap.values m).
Proof.
  induction m as [|[k' v'] m IH]; simpl; [done|].
  destruct (String.eqb k' k); [by intros [= ->]; left|by right; apply IH].
Qed.

Lemma name_exists_false σ name uid u :
  name_exists σ name = false →
  OrdMap.get uid (users σ) = Some u →
  JsString.toLowerCase (User.username u) ≠ JsString.toLowerCase name.
Proof.
  intros Hnone Hu Heq.
  assert (Hex : name_exists σ name = true); [|congruence].
  apply existsb_exists. exists u. split; [by eapply ordmap_get_values|].
  by apply String.eqb_eq.
Qed.

(** An entry read after a step that is not a registration was there
    before, with the same display name. *)
Lemma step_profile_inv σ ev uid u' :
  keeps_user uid ev →
  OrdMap.get uid (users (st (step σ ev))) = Some u' →
  ∃ u, OrdMap.get uid (users σ) = Some u
       ∧ User.username u' = User.username u.
Proof.
  intros Hkeep Hu'. pose proof (step_profile σ ev uid Hkeep) as H.
  rewrite Hu' in H. destruct (OrdMap.get uid (users σ)) as [u|]; [|done].
  exists u. split; [done|apply H].
Qed.

Lemma names_valid_step σ ev : names_valid σ → names_valid (st (step σ ev)).
Proof.
  intros Hσ uid u' Hu'.
  assert (Hother : keeps_user uid ev → (2 ≤ String.length (User.username u'))%nat
                     ∧ JsString.trim (User.username u') = User.username u').
  { intros Hkeep. destruct (step_profile_inv σ ev uid u' Hkeep Hu') as (u & Hu & ->).
    by apply (Hσ uid). }
  destruct ev; try by apply Hother.
  simpl in Hu'. revert Hu'. unfold register.
  repeat (case_match; simpl; try by (intros ?; eapply Hσ)).
  rewrite ordmap_get_set. case_decide; [|by (intros ?; eapply Hσ)].
  intros [= <-]. simpl. split; [|apply trim_idem].
  match goal with H : (_ <? 2)%nat = false |- _ => by apply Nat.ltb_ge in H end.
Qed.

Lemma names_valid_run evs : ∀ σ, names_valid σ → names_valid (run σ evs).
Proof.
  induction evs as [|ev evs IH]; intros σ Hσ; [done|].
  rewrite run_cons. destruct (outcome (step σ ev));
    [apply IH|]; by apply names_valid_step.
Qed.

Lemma names_valid_initial : names_valid initial.
Proof. by intros uid u. Qed.

(** X3: in every reachable state each stored display name has at least
    two characters and is trimmed. *)
Theorem stored_names_valid σ : reachable σ → names_valid σ.
Proof.
  intros [evs ->]. apply names_valid_run.
  apply names_valid_initial.
Qed.

Lemma names_distinct_step σ ev :
  trimmed_registration σ ev → names_distinct σ → names_distinct (st (step σ ev)).
Proof.
  intros Hev Hσ.
  assert (Hother : (∀ uid, keeps_user uid ev) → names_distinct (st (step σ ev))).
  { intros Hkeep uid1 uid2 u1 u2 H1 H2.
    destruct (step_profile_inv σ ev uid1 u1 (Hkeep _) H1) as (v1 & Hv1 & ->).
    destruct (step_profile_inv σ ev uid2 u2 (Hkeep _) H2) as (v2 & Hv2 & ->).
    by apply Hσ. }
  destruct ev; try by apply Hother.
  simpl. unfold register.
  destruct (Js.truthy username); simpl; [|done].
  destruct username as [| | | |name|]; try done.
  destruct (String.length (JsString.trim name) <? 2)%nat; [done|].
  destruct (name_exists σ name) eqn:Hexists; [done|].
  rename Hev into Htrim. unfold names_distinct. simpl in *.
  intros uid1 uid2 u1 u2. rewrite !ordmap_get_set.
  repeat case_decide; subst; try done.
  - intros [= <-] H2 Heq. simpl in Heq. rewrite Htrim in Heq.
    by destruct (name_exists_false σ name uid2 u2 Hexists H2).
  - intros H1 [= <-] Heq. simpl in Heq. rewrite Htrim in Heq.
    by destruct (name_exists_false σ name uid1 u1 Hexists H1).
  - apply Hσ.
Qed.

(** X4: when every registration arrives with a trimmed name, as the
    registration page sends it, no two registered users have the same
    display name up to case. *)
Theorem trimmed_names_distinct evs :
  run_where trimmed_registration initial evs → names_distinct (run initial evs).
Proof.
  assert (H : ∀ σ, names_distinct σ → run_where trimmed_registration σ evs →
                   names_distinct (run σ evs)).
  { induction evs as [|ev evs IH]; intros σ Hσ Hrun; [done|].
    destruct Hrun as [Hev Hrest]. rewrite run_cons.
    destruct (outcome (step σ ev)); [apply IH; [|done]|];
      by apply names_distinct_step. }
  apply H. by intros uid1 uid2 u1 u2.
Qed.

(** ** The conversation store *)

Lemma total_insert (msgs : gmap string (list Message.t)) k l :
  map_fold (λ _ ms sum, (sum + length ms)%nat) 0%nat (<[k:=l]> msgs)
  = (map_fold (λ _ ms sum, (sum + length ms)%nat) 0%nat (delete k msgs)
     + length l)%nat.
Proof.
  rewrite <- insert_delete_eq.
  rewrite map_fold_insert_L; [done| |apply lookup_delete_eq].
  intros. lia.
Qed.

Lemma total_delete (msgs : gmap string (list Message.t)) k :
  map_fold (λ _ ms sum, (sum + length ms)%nat) 0%nat msgs
  = (map_fold (λ _ ms sum, (sum + length ms)%nat) 0%nat (delete k msgs)
     + length (default [] (msgs !! k)))%nat.
Proof.
  destruct (msgs !! k) as [l|] eqn:E; simpl.
  - rewrite (map_fold_delete_L _ _ k l msgs); [done| |done]. intros. lia.
  - rewrite delete_id by done. lia.
Qed.

Lemma totalMessages_push k m σ :
  totalMessages (push_message k m σ) = S (totalMessages σ).
Proof.
  unfold totalMessages, push_message. simpl.
  rewrite total_insert, (total_delete (messages σ) k).
  destruct (messages σ !! k) as [l|] eqn:E; simpl.
  - rewrite E. simpl. rewrite length_app. simpl. lia.
  - rewrite lookup_insert_eq, delete_insert_eq. simpl. lia.
Qed.

(** What [send-message] does to the store: nothing, with no message-sent
    emitted, or one push, acknowledged by one message-sent, of a message
    that is filed under the key of its own sender and recipient. *)
Lemma send_message_cases c clk payload σ :
  let r := on_send_message c clk payload σ in
  (st r = σ ∧ count_sent (out r) = 0%nat)
  ∨ ∃ m, st r = push_message
                  (getConversationId (Js.VStr (Message.senderId m))
                                     (Js.VStr (Message.recipientId m))) m σ
         ∧ count_sent (out r) = 1%nat
         ∧ connections σ !! c = Some (Message.senderId m)
         ∧ is_Some (OrdMap.get (Message.senderId m) (users σ))
         ∧ is_Some (OrdMap.get (Message.recipientId m) (users σ))
         ∧ JsString.trim (Message.message m) = Message.message m.
Proof.
  unfold on_send_message.
  destruct (Js.destructure payload "recipientId") as [recipientId|]; [|by left].
  destruct (Js.destructure payload "message") as [message|]; [|by left].
  destruct (truthy_id (connections σ !! c)) as [senderId|] eqn:Hs; [|by left].
  destruct (users_get σ recipientId) as [[rid recipient]|] eqn:Hr; [|by left].
  destruct (OrdMap.get senderId (users σ)) as [sender|] eqn:Hsender; [|by left].
  destruct (Js.call_trim message) as [body|] eqn:Hbody; [|by left].
  apply truthy_id_Some in Hs as [Hs _].
  apply users_get_Some in Hr as [-> Hr].
  destruct message as [| | | |text|]; try done. injection Hbody as <-.
  right.
  exists {| Message.id := fresh_id "msg" clk;
            Message.senderId := senderId;
            Message.senderName := User.username sender;
            Message.recipientId := rid;
            Message.recipientName := User.username recipient;
            Message.message := JsString.trim text;
            Message.timestamp := iso_now clk |}.
  split; [done|]. simpl.
  split; [by repeat case_match|].
  split; [done|]. split; [by eexists|]. split; [by eexists|apply trim_idem].
Qed.

Lemma count_sent_login c payload σ : count_sent (out (on_user_login c payload σ)) = 0%nat.
Proof. unfold on_user_login. by repeat (case_match; simpl; try done). Qed.

Lemma count_sent_disconnect c σ : count_sent (out (on_disconnect c σ)) = 0%nat.
Proof. unfold on_disconnect. by repeat (case_match; simpl; try done). Qed.

Lemma count_sent_typing c payload σ : count_sent (out (on_typing c payload σ)) = 0%nat.
Proof. unfold on_typing. by repeat (case_match; simpl; try done). Qed.

Lemma count_sent_history c payload σ :
  count_sent (out (on_get_chat_history c payload σ)) = 0%nat.
Proof. unfold on_get_chat_history. by repeat (case_match; simpl; try done). Qed.

Lemma messages_login c payload σ : messages (st (on_user_login c payload σ)) = messages σ.
Proof. unfold on_user_login. by repeat (case_match; simpl; try done). Qed.

Lemma messages_disconnect c σ : messages (st (on_disconnect c σ)) = messages σ.
Proof. unfold on_disconnect. by repeat (case_match; simpl; try done). Qed.

Lemma messages_register clk username σ :
  messages (register clk username σ).1 = messages σ.
Proof. unfold register. by repeat (case_match; simpl; try done). Qed.

(** A step leaves the store as it was or pushes one message. *)
Lemma step_messages σ ev :
  (messages (st (step σ ev)) = messages σ ∧ count_sent (out (step σ ev)) = 0%nat)
  ∨ ∃ m, st (step σ ev)
         = push_message (getConversationId (Js.VStr (Message.senderId m))
                                           (Js.VStr (Message.recipientId m))) m σ
         ∧ count_sent (out (step σ ev)) = 1%nat
         ∧ is_Some (OrdMap.get (Message.senderId m) (users σ))
         ∧ is_Some (OrdMap.get (Message.recipientId m) (users σ))
         ∧ JsString.trim (Message.message m) = Message.message m.
Proof.
  destruct ev; simpl.
  - left. by rewrite messages_register.
  - left. by rewrite messages_login, count_sent_login.
  - left. by rewrite get_chat_history_state, count_sent_history.
  - destruct (send_message_cases socket_id clk payload σ)
      as [[-> ?]|(m & ? & ? & _ & ? & ? & ?)]; [by left|right; by exists m].
  - left. by rewrite typing_state, count_sent_typing.
  - left. by rewrite messages_disconnect, count_sent_disconnect.
  - left. rewrite on_logout_disconnect.
    by rewrite messages_disconnect, count_sent_disconnect.
Qed.

(** X5: every event changes the number of stored messages by the number
    of message-sent events it emits, which is 0 or 1: a message is stored
    exactly when it is acknowledged to its sender. *)
Theorem stored_iff_acknowledged σ ev :
  totalMessages (st (step σ ev))
  = (totalMessages σ + count_sent (out (step σ ev)))%nat
  ∧ (count_sent (out (step σ ev)) ≤ 1)%nat.
Proof.
  destruct (step_messages σ ev) as [[Hm ->]|(m & -> & -> & _)].
  - unfold totalMessages. rewrite Hm. split; lia.
  - rewrite totalMessages_push. split; lia.
Qed.

Lemma conversation_push_prefix k k' m σ :
  conversation σ k' `prefix_of` conversation (push_message k m σ) k'.
Proof.
  destruct (decide (k = k')) as [->|Hne].
  - rewrite conversation_push_eq. by apply prefix_app_r.
  - by rewrite conversation_push_ne.
Qed.

Lemma step_conversation_prefix σ ev k :
  conversation σ k `prefix_of` conversation (st (step σ ev)) k.
Proof.
  destruct (step_messages σ ev) as [[Hm _]|(m & -> & _)].
  - unfold conversation. by rewrite Hm.
  - apply conversation_push_prefix.
Qed.

(** X6: the store is append-only: whatever events follow, the messages of
    a conversation stay where they are, in their order, and new ones are
    added after them. *)
Theorem conversations_append_only σ evs k :
  conversation σ k `prefix_of` conversation (run σ evs) k.
Proof.
  revert σ. induction evs as [|ev evs IH]; intros σ; [done|].
  rewrite run_cons. destruct (outcome (step σ ev)).
  - etrans; [apply (step_conversation_prefix σ ev)|apply IH].
  - apply step_conversation_prefix.
Qed.

Lemma ordmap_get_is_Some_keys {V} (m : OrdMap.t V) k :
  is_Some (OrdMap.get k m) ↔ k ∈ ordmap_keys m.
Proof.
  pose proof (ordmap_get_None_keys m k) as H.
  destruct (OrdMap.get k m) as [v|].
  - split; [|by eexists]. intros _.
    destruct (decide (k ∈ ordmap_keys m)) as [|Hn]; [done|].
    by apply H in Hn.
  - split; [by intros [? ?]|]. intros Hin. by destruct (proj1 H eq_refl).
Qed.

Lemma step_registered σ ev uid :
  is_Some (OrdMap.get uid (users σ)) →
  is_Some (OrdMap.get uid (users (st (step σ ev)))).
Proof.
  rewrite !ordmap_get_is_Some_keys. intros Hin.
  by eapply elem_of_prefix, step_keys_prefix.
Qed.

Lemma messages_filed_step σ ev : messages_filed σ → messages_filed (st (step σ ev)).
Proof.
  intros Hσ k m' Hin.
  assert (Hold : m' ∈ conversation σ k →
    k = getConversationId (Js.VStr (Message.senderId m'))
                          (Js.VStr (Message.recipientId m'))
    ∧ is_Some (OrdMap.get (Message.senderId m') (users (st (step σ ev))))
    ∧ is_Some (OrdMap.get (Message.recipientId m') (users (st (step σ ev))))
    ∧ JsString.trim (Message.message m') = Message.message m').
  { intros Hin0. destruct (Hσ _ _ Hin0) as (Hk & ? & ? & ?).
    repeat split; by try apply step_registered. }
  destruct (step_messages σ ev) as [[Hm _]|(m & Hst & _ & Hs & Hr & Hbody)].
  - apply Hold. unfold conversation in *. by rewrite <- Hm.
  - rewrite Hst in Hin.
    destruct (decide (getConversationId (Js.VStr (Message.senderId m))
                        (Js.VStr (Message.recipientId m)) = k)) as [<-|Hne].
    + rewrite conversation_push_eq in Hin.
      apply elem_of_app in Hin as [Hin | ->%list_elem_of_singleton];
        [by apply Hold|].
      repeat split; by try apply step_registered.
    + rewrite conversation_push_ne in Hin by done. by apply Hold.
Qed.

Lemma reachable_messages_filed σ : reachable σ → messages_filed σ.
Proof.
  intros [evs ->].
  assert (H : ∀ σ, messages_filed σ → messages_filed (run σ evs)).
  { induction evs as [|ev evs IH]; intros σ Hσ; [done|].
    rewrite run_cons. destruct (outcome (step σ ev));
      [apply IH|]; by apply messages_filed_step. }
  apply H. intros k m. unfold conversation. simpl. rewrite lookup_empty. simpl.
  by intros ?%elem_of_nil.
Qed.

Lemma elem_of_slice {A} (start : Z) (l : list A) x : x ∈ Js.slice start l → x ∈ l.
Proof.
  unfold Js.slice. intros Hin.
  rewrite <- (take_drop (Z.to_nat
    (if start <? 0 then Z.max (Z.of_nat (length l) + start) 0
     else Z.min start (Z.of_nat (length l)))) l).
  apply elem_of_app. by right.
Qed.

(** X7: in a reachable state every message returned as history of the
    pair (a, b) was sent by a registered user to a registered user, has a
    trimmed body, and its own sender and recipient give the key of (a, b);
    when the identifiers have the form registration gives them, the sender
    and the recipient are a and b, in one order or the other. *)
Theorem history_messages_belong σ (a b : string) limit m :
  reachable σ →
  m ∈ getChatHistory σ (Js.VStr a) (Js.VStr b) limit →
  getConversationId (Js.VStr (Message.senderId m)) (Js.VStr (Message.recipientId m))
  = getConversationId (Js.VStr a) (Js.VStr b)
  ∧ is_Some (OrdMap.get (Message.senderId m) (users σ))
  ∧ is_Some (OrdMap.get (Message.recipientId m) (users σ))
  ∧ JsString.trim (Message.message m) = Message.message m
  ∧ (registration_id a → registration_id b →
     registration_id (Message.senderId m) → registration_id (Message.recipientId m) →
     same_pair (Message.senderId m) (Message.recipientId m) a b).
Proof.
  intros Hσ%reachable_messages_filed Hin%elem_of_slice.
  destruct (Hσ _ _ Hin) as (Hk & Hs & Hr & Hbody).
  repeat split; try done.
  intros Ha Hb Hsid Hrid. by apply getConversationId_inj.
Qed.

(** ** Reading the history *)

(** X8: get-chat-history never changes the state; it emits nothing, or one
    chat-history event to the requesting socket and to nobody else, which
    echoes the identifier asked for and carries at most 50 messages, the
    last ones of the conversation of the user bound to the channel with
    that identifier. *)
Theorem get_chat_history_reply σ c payload :
  let r := on_get_chat_history c payload σ in
  st r = σ
  ∧ (out r = []
     ∨ ∃ userId otherUserId history,
         out r = [emit (ToSocket c) (EvChatHistory otherUserId history)]
         ∧ connections σ !! c = Some userId
         ∧ Js.destructure payload "otherUserId" = Some otherUserId
         ∧ history `suffix_of`
             conversation σ (getConversationId (Js.VStr userId) otherUserId)
         ∧ length history
           = Nat.min 50 (length (conversation σ
                (getConversationId (Js.VStr userId) otherUserId)))).
Proof.
  split; [apply get_chat_history_state|].
  unfold on_get_chat_history.
  destruct (Js.destructure payload "otherUserId") as [other|] eqn:Hp; [|by left].
  destruct (truthy_id (connections σ !! c)) as [userId|] eqn:Hc; [|by left].
  apply truthy_id_Some in Hc as [Hc _].
  destruct (getConversationId_throws (Js.VStr userId) other); [by left|].
  right. exists userId, other, (getChatHistory σ (Js.VStr userId) other None).
  split; [done|]. split; [done|]. split; [done|].
  unfold getChatHistory. simpl.
  change (-50) with (- (50)). rewrite slice_positive by lia.
  destruct (last_n_suffix (Z.to_nat 50)
    (conversation σ (getConversationId (Js.VStr userId) other))) as (older & Heq & Hlen).
  split; [by exists older|exact Hlen].
Qed.

(** ** When the handlers throw *)

Lemma destructure_None payload name :
  Js.destructure payload name = None ↔ no_payload payload.
Proof.
  unfold no_payload. destruct payload; simpl; split; try done;
    try (by left); try (by right); by intros [|].
Qed.

Lemma typing_throws_iff σ c payload :
  outcome (on_typing c payload σ) = Thrown ↔ no_payload payload.
Proof.
  split.
  - unfold on_typing.
    destruct (Js.destructure payload "recipientId") eqn:E;
      [|by intros _; apply destructure_None in E].
    destruct (destructure_defined payload _ _ "isTyping" E) as [isTyping ->].
    by repeat (case_match; simpl; try done).
  - intros Hp. unfold on_typing.
    by apply (destructure_None payload "recipientId") in Hp as ->.
Qed.

Lemma toString_None_throws userId other :
  getConversationId_throws (Js.VStr userId) other = true ↔ Js.toString other = None.
Proof.
  unfold getConversationId_throws, Js.throws. simpl.
  destruct (Js.toString other); simpl; by split.
Qed.

(** X9: in a reachable state user-login and typing throw exactly when the
    event has no payload to destructure (undefined or null);
    get-chat-history throws exactly then, or when its channel is bound and
    ToString raises a TypeError for the otherUserId it carries (an object
    with an own toString property), in getConversationId; disconnect and
    logout never throw. *)
Theorem handlers_throw_iff σ c payload :
  reachable σ →
  (outcome (on_user_login c payload σ) = Thrown ↔ no_payload payload)
  ∧ (outcome (on_get_chat_history c payload σ) = Thrown ↔
       no_payload payload
       ∨ ∃ otherUserId,
           Js.destructure payload "otherUserId" = Some otherUserId
           ∧ is_Some (connections σ !! c)
           ∧ Js.toString otherUserId = None)
  ∧ (outcome (on_typing c payload σ) = Thrown ↔ no_payload payload)
  ∧ outcome (on_disconnect c σ) = Returned
  ∧ outcome (on_logout c σ) = Returned.
Proof.
  intros Hσ.
  split; [split|split; [|split; [apply typing_throws_iff|split]]].
  - unfold on_user_login.
    destruct (Js.destructure payload "userId") eqn:E;
      [|by intros _; apply destructure_None in E].
    by repeat (case_match; simpl; try done).
  - intros Hp. unfold on_user_login.
    by apply (destructure_None payload "userId") in Hp as ->.
  - unfold on_get_chat_history.
    destruct (Js.destructure payload "otherUserId") as [other|] eqn:E.
    2:{ apply destructure_None in E. split; [by left|done]. }
    assert (Hp : ¬ no_payload payload).
    { intros Hp. apply (destructure_None payload "otherUserId") in Hp. congruence. }
    destruct (connections σ !! c) as [userId|] eqn:Hc.
    2:{ simpl. split; [done|]. intros [?|(? & _ & [? ?] & _)]; done. }
    destruct (reachable_authenticated σ c userId Hσ Hc) as [Hauth _].
    rewrite Hc in Hauth. rewrite Hauth.
    destruct (getConversationId_throws (Js.VStr userId) other) eqn:Hthrow; simpl.
    + apply toString_None_throws in Hthrow. split; [intros _|done].
      right. exists other. split; [done|]. split; [by eexists|done].
    + split; [done|]. intros [?|(other' & [= <-] & _ & Hnone)]; [done|].
      apply (toString_None_throws userId) in Hnone. congruence.
  - unfold on_disconnect. by repeat (case_match; simpl; try done).
  - unfold on_logout. by repeat (case_match; simpl; try done).
Qed.

(** A send-message that carries a string returns. *)
Lemma send_message_string_returns σ c clk payload text :
  reachable σ →
  Js.destructure payload "message" = Some (Js.VStr text) →
  outcome (on_send_message c clk payload σ) = Returned.
Proof.
  intros Hσ Hmsg.
  destruct (destructure_defined payload _ _ "recipientId" Hmsg) as [recipientId Hrid].
  unfold on_send_message. rewrite Hrid, Hmsg.
  destruct (connections σ !! c) as [sender|] eqn:Hc; [|done].
  destruct (reachable_authenticated σ c sender Hσ Hc) as [Hauth [u Hu]].
  rewrite Hc in Hauth. rewrite Hauth.
  destruct (users_get σ recipientId) as [[rid recipient]|]; [|done].
  by rewrite Hu.
Qed.

(** X10: in a reachable state send-message throws exactly when the event
    has no payload, or when it comes from a bound channel, names a
    registered recipient and carries a message that is not a string; in
    both cases nothing is emitted and the state is left as it was. *)
Theorem send_message_throws_iff σ c clk payload :
  reachable σ →
  let r := on_send_message c clk payload σ in
  (outcome r = Thrown ↔
     no_payload payload
     ∨ ∃ recipientId message,
         Js.destructure payload "recipientId" = Some recipientId
         ∧ Js.destructure payload "message" = Some message
         ∧ is_Some (connections σ !! c)
         ∧ is_Some (users_get σ recipientId)
         ∧ ∀ text, message ≠ Js.VStr text)
  ∧ (outcome r = Thrown → st r = σ ∧ out r = []).
Proof.
  intros Hσ. simpl. unfold on_send_message.
  destruct (Js.destructure payload "recipientId") as [recipientId|] eqn:Hrid.
  2:{ apply destructure_None in Hrid. split; [|done]. split; [by left|done]. }
  destruct (destructure_defined payload _ _ "message" Hrid) as [message Hmsg].
  rewrite Hmsg.
  assert (Hpayload : ¬ no_payload payload).
  { intros Hp. apply (destructure_None payload "message") in Hp. congruence. }
  destruct (connections σ !! c) as [sender|] eqn:Hc.
  2:{ simpl. split; [|done]. split; [done|].
      intros [?|(? & ? & _ & _ & [? ?] & _)]; done. }
  destruct (reachable_authenticated σ c sender Hσ Hc) as [Hauth [u Hu]].
  rewrite Hc in Hauth. rewrite Hauth.
  destruct (users_get σ recipientId) as [[rid recipient]|] eqn:Hr.
  2:{ simpl. split; [|done]. split; [done|].
      intros [?|(r' & m' & Hr' & _ & _ & [x Hx] & _)]; [done|]. congruence. }
  rewrite Hu.
  destruct message as [| | | |text|]; simpl;
    try (split; [|done]; split; [intros _|done]; right;
         eexists _, _; repeat split; eauto; done).
  split; [|done]. split; [done|].
  intros [?|(r' & m' & _ & Hm' & _ & _ & Hne)]; [done|].
  injection Hm' as <-. by destruct (Hne text).
Qed.

(** ** Errors reported to the requester *)

(** X11: a user-login answers with the single error event "User not
    found", sent to the requesting socket, and leaves the state as it was,
    exactly when its payload can be destructured and its userId is not a
    key of the registry. *)
Theorem login_unknown_user σ c payload :
  (∃ userId, Js.destructure payload "userId" = Some userId
             ∧ users_get σ userId = None)
  ↔ on_user_login c payload σ
    = returned σ [emit (ToSocket c) (EvError "User not found")].
Proof.
  unfold on_user_login. split.
  - intros (userId & -> & ->). done.
  - destruct (Js.destructure payload "userId") as [userId|]; [|done].
    destruct (users_get σ userId) as [[uid u]|] eqn:Hu; [done|].
    intros _. by exists userId.
Qed.

(** X12: in a reachable state a send-message answers with the single
    error event "Not authenticated", sent to the requesting socket, and
    leaves the state as it was, exactly when it has a payload and its
    channel is not bound to a user, whatever recipient and message it
    carries. *)
Theorem send_message_unauthenticated σ c clk payload :
  reachable σ →
  (¬ no_payload payload ∧ connections σ !! c = None)
  ↔ on_send_message c clk payload σ
    = returned σ [emit (ToSocket c) (EvError "Not authenticated")].
Proof.
  intros Hσ. unfold on_send_message. split.
  - intros [Hp Hc].
    destruct (Js.destructure payload "recipientId") as [recipientId|] eqn:Hrid;
      [|by apply destructure_None in Hrid].
    destruct (destructure_defined payload _ _ "message" Hrid) as [message ->].
    by rewrite Hc.
  - destruct (Js.destructure payload "recipientId") as [recipientId|] eqn:Hrid;
      [|done].
    destruct (destructure_defined payload _ _ "message" Hrid) as [message Hmsg].
    rewrite Hmsg.
    assert (Hp : ¬ no_payload payload).
    { intros Hp. apply (destructure_None payload "message") in Hp. congruence. }
    destruct (connections σ !! c) as [sender|] eqn:Hc; [|done].
    destruct (reachable_authenticated σ c sender Hσ Hc) as [Hauth [u Hu]].
    rewrite Hc in Hauth. rewrite Hauth.
    by repeat (case_match; simpl; try done).
Qed.

(** X27: an error event is never mixed with anything else: whenever a
    handler emits one, it is the only emission, it goes to the requesting
    socket, the handler returns, the state is left as it was, and the
    message is "User not found" for a user-login and "Not authenticated"
    or "Recipient not found" for a send-message; the other handlers emit
    no error event. *)
Theorem error_events_local σ ev e msg :
  e ∈ out (step σ ev) →
  event e = EvError msg →
  st (step σ ev) = σ
  ∧ out (step σ ev) = [e]
  ∧ outcome (step σ ev) = Returned
  ∧ ((∃ c payload, ev = UserLogin c payload
                   ∧ target e = ToSocket c ∧ msg = "User not found")
     ∨ (∃ c clk payload, ev = SendMessage c clk payload
                         ∧ target e = ToSocket c
                         ∧ (msg = "Not authenticated" ∨ msg = "Recipient not found"))).
Proof.
  intros Hin He.
  assert (Hone : ∀ (x : Emission) l, e ∈ x :: l → e = x ∨ e ∈ l)
    by (by intros x l ?%elem_of_cons).
  destruct ev; simpl in *.
  - by apply elem_of_nil in Hin.
  - revert Hin. unfold on_user_login.
    repeat (case_match; simpl);
      intros Hin; repeat (apply Hone in Hin as [->|Hin]; simpl in He; try done);
      try (by apply elem_of_nil in Hin).
    injection He as <-. do 3 (split; [done|]). left. by do 2 eexists.
  - revert Hin. unfold on_get_chat_history.
    repeat (case_match; simpl);
      intros Hin; repeat (apply Hone in Hin as [->|Hin]; simpl in He; try done);
      by apply elem_of_nil in Hin.
  - revert Hin. unfold on_send_message.
    repeat (case_match; simpl);
      intros Hin; repeat (apply Hone in Hin as [->|Hin]; simpl in He; try done);
      try (by apply elem_of_nil in Hin).
    all: injection He as <-.
    all: do 3 (split; [done|]).
    all: right; exists socket_id, clk, payload.
    all: split; [done|]; split; [done|]; ((by left) || (by right)).
  - revert Hin. unfold on_typing.
    repeat (case_match; simpl);
      intros Hin; repeat (apply Hone in Hin as [->|Hin]; simpl in He; try done);
      by apply elem_of_nil in Hin.
  - revert Hin. unfold on_disconnect.
    repeat (case_match; simpl);
      intros Hin; repeat (apply Hone in Hin as [->|Hin]; simpl in He; try done);
      by apply elem_of_nil in Hin.
  - revert Hin. unfold on_logout.
    repeat (case_match; simpl);
      intros Hin; repeat (apply Hone in Hin as [->|Hin]; simpl in He; try done);
      by apply elem_of_nil in Hin.
Qed.

(** ** Delivery *)

(** The two emissions of a send-message whose sender and recipient are
    found and whose recipient is online. *)
Lemma send_message_delivers σ c clk payload sender u rid recipient room text :
  truthy_id (connections σ !! c) = Some sender →
  OrdMap.get sender (users σ) = Some u →
  Js.destructure payload "recipientId" = Some (Js.VStr rid) →
  Js.destructure payload "message" = Some (Js.VStr text) →
  OrdMap.get rid (users σ) = Some recipient →
  User.online recipient = true →
  User.socketId recipient = Some room →
  room ≠ "" →
  let m := {| Message.id := fresh_id "msg" clk;
              Message.senderId := sender;
              Message.senderName := User.username u;
              Message.recipientId := rid;
              Message.recipientName := User.username recipient;
              Message.message := JsString.trim text;
              Message.timestamp := iso_now clk |} in
  on_send_message c clk payload σ
  = returned
      (push_message (getConversationId (Js.VStr sender) (Js.VStr rid)) m σ)
      [emit (ToRoom room) (EvReceiveMessage m); emit (ToSocket c) (EvMessageSent m)].
Proof.
  intros Hauth Hu Hrid Hmsg Hrecipient Honline Hroom Hne.
  assert (Hget : users_get σ (Js.VStr rid) = Some (rid, recipient))
    by (by apply users_get_Some).
  assert (Htruthy : truthy_id (Some room) = Some room) by (by apply truthy_id_Some).
  unfold on_send_message. rewrite Hrid, Hmsg, Hauth, Hget, Hu. simpl.
  by rewrite Honline, Hroom, Htruthy.
Qed.

(** X13: a send-message with a string body from a bound channel to a
    registered recipient who is online emits two events carrying the same
    message: receive-message to the room of the recipient's connection
    handle, then message-sent to the sender's socket; the message is the
    last one of the pair's conversation afterwards. *)
Theorem send_message_online σ c clk payload sender rid recipient room text :
  reachable σ →
  connections σ !! c = Some sender →
  Js.destructure payload "recipientId" = Some (Js.VStr rid) →
  Js.destructure payload "message" = Some (Js.VStr text) →
  OrdMap.get rid (users σ) = Some recipient →
  User.online recipient = true →
  User.socketId recipient = Some room →
  room ≠ "" →
  let r := on_send_message c clk payload σ in
  ∃ m, out r = [emit (ToRoom room) (EvReceiveMessage m);
                emit (ToSocket c) (EvMessageSent m)]
       ∧ outcome r = Returned
       ∧ Message.senderId m = sender
       ∧ Message.recipientId m = rid
       ∧ Message.message m = JsString.trim text
       ∧ last (conversation (st r)
                 (getConversationId (Js.VStr sender) (Js.VStr rid))) = Some m.
Proof.
  intros Hσ Hc Hrid Hmsg Hrecipient Honline Hroom Hne.
  destruct (reachable_authenticated σ c sender Hσ Hc) as [Hauth [u Hu]].
  cbv zeta.
  rewrite (send_message_delivers σ c clk payload sender u rid recipient room text)
    by done.
  eexists. split; [done|]. do 4 (split; [done|]). simpl.
  rewrite conversation_push_eq. apply last_snoc.
Qed.

(** X14: in the state a login of a registered user on a channel leaves,
    a message with a string body sent from a bound channel to that user is
    emitted to the room of that channel, and acknowledged to the sender,
    whichever channels the user was logged in on before. *)
Theorem delivery_after_login σ c2 login c clk payload uid sender text :
  reachable σ →
  Js.destructure login "userId" = Some (Js.VStr uid) →
  is_Some (OrdMap.get uid (users σ)) →
  c2 ≠ "" →
  let σ1 := st (on_user_login c2 login σ) in
  connections σ1 !! c = Some sender →
  Js.destructure payload "recipientId" = Some (Js.VStr uid) →
  Js.destructure payload "message" = Some (Js.VStr text) →
  ∃ m, out (on_send_message c clk payload σ1)
       = [emit (ToRoom c2) (EvReceiveMessage m); emit (ToSocket c) (EvMessageSent m)].
Proof.
  intros Hσ Hlogin [u Hu] Hc2 σ1 Hc Hrid Hmsg.
  assert (Hσ1 : reachable σ1) by apply (reachable_step σ (UserLogin c2 login) Hσ).
  destruct (reachable_authenticated σ1 c sender Hσ1 Hc) as [Hauth [v Hv]].
  assert (Hget : users_get σ (Js.VStr uid) = Some (uid, u))
    by (by apply users_get_Some).
  assert (Hu1 : OrdMap.get uid (users σ1)
                = Some {| User.username := User.username u;
                          User.socketId := Some c2;
                          User.online := true;
                          User.createdAt := User.createdAt u |}).
  { subst σ1. unfold on_user_login. rewrite Hlogin, Hget. simpl.
    apply ordmap_get_set_eq. }
  rewrite (send_message_delivers σ1 c clk payload sender v uid _ c2 text
             Hauth Hv Hrid Hmsg Hu1 eq_refl eq_refl Hc2).
  by eexists.
Qed.

(** ** Signing off *)

Lemma state_eq σ σ' :
  users σ = users σ' → connections σ = connections σ' → messages σ = messages σ' →
  σ = σ'.
Proof. destruct σ, σ'; simpl; by intros -> -> ->. Qed.

(** X15: once a channel has logged out or disconnected, a further logout
    or disconnect of the same channel emits nothing and changes nothing,
    so the logout followed by the disconnect that the chat page sends
    announces the user offline once. *)
Theorem sign_off_twice σ c :
  let σ1 := st (on_logout c σ) in
  on_disconnect c σ1 = returned σ1 []
  ∧ on_logout c σ1 = returned σ1 []
  ∧ st (on_disconnect c σ) = σ1.
Proof.
  cbv zeta.
  assert (Hunbound : connections (st (on_disconnect c σ)) !! c = None).
  { unfold on_disconnect. repeat (case_match; simpl); apply lookup_delete_eq. }
  assert (H : on_disconnect c (st (on_disconnect c σ))
              = returned (st (on_disconnect c σ)) []).
  { unfold on_disconnect at 1. rewrite Hunbound. simpl. f_equal.
    apply state_eq; simpl; [done| |done]. by apply delete_id. }
  split; [exact H|]. split; [exact H|reflexivity].
Qed.

(** X16: in a reachable state a disconnect or a logout emits nothing
    exactly when its channel is not bound, and then it leaves the state as
    it was. *)
Theorem sign_off_unbound σ c :
  reachable σ →
  (connections σ !! c = None ↔ out (on_disconnect c σ) = [])
  ∧ (connections σ !! c = None ↔ out (on_logout c σ) = [])
  ∧ (connections σ !! c = None →
     on_disconnect c σ = returned σ [] ∧ on_logout c σ = returned σ []).
Proof.
  intros Hσ.
  assert (Hnone : connections σ !! c = None → on_disconnect c σ = returned σ []).
  { intros Hc. unfold on_disconnect. rewrite Hc. simpl. f_equal.
    apply state_eq; simpl; [done| |done]. by apply delete_id. }
  assert (Hiff : connections σ !! c = None ↔ out (on_disconnect c σ) = []).
  { split; [by intros ->%Hnone|].
    destruct (connections σ !! c) as [uid|] eqn:Hc; [|done].
    destruct (reachable_authenticated σ c uid Hσ Hc) as [Hauth [u Hu]].
    unfold on_disconnect. rewrite Hc in Hauth. by rewrite Hc, Hauth, Hu. }
  split; [exact Hiff|]. split; [exact Hiff|].
  intros Hc. split; exact (Hnone Hc).
Qed.

(** X17: a login on an unbound channel for a registered user who is
    offline, followed by the logout (or the disconnect) of that channel,
    gives back the state before the login. *)
Theorem login_logout_round_trip σ c payload uid u :
  reachable σ →
  connections σ !! c = None →
  Js.destructure payload "userId" = Some (Js.VStr uid) →
  OrdMap.get uid (users σ) = Some u →
  User.online u = false →
  st (on_logout c (st (on_user_login c payload σ))) = σ
  ∧ st (on_disconnect c (st (on_user_login c payload σ))) = σ.
Proof.
  intros Hσ Hc Hp Hu Hoff.
  assert (H : st (on_disconnect c (st (on_user_login c payload σ))) = σ);
    [|by split; exact H].
  pose proof (reachable_Inv σ Hσ) as [Hkey _ Hsock].
  assert (Hnone : User.socketId u = None).
  { destruct (User.socketId u) eqn:E; [|done].
    assert (User.online u = true) by (apply (Hsock uid u Hu); congruence).
    congruence. }
  assert (Hget : users_get σ (Js.VStr uid) = Some (uid, u))
    by (by apply users_get_Some).
  assert (Htruthy : truthy_id (Some uid) = Some uid)
    by (apply truthy_id_Some; split; [done|by eapply Hkey]).
  unfold on_user_login. rewrite Hp, Hget. simpl.
  unfold on_disconnect. simpl. rewrite lookup_insert_eq, Htruthy. simpl.
  rewrite ordmap_get_set_eq. simpl.
  apply state_eq; simpl.
  - rewrite ordmap_set_set. apply ordmap_set_same.
    rewrite Hu. f_equal. destruct u; simpl in *. by subst.
  - by rewrite delete_insert_id.
  - done.
Qed.

(** ** The roster of online users *)

Lemma not_excluded_true uid excl : not_excluded uid excl = true ↔ excl ≠ Some uid.
Proof.
  destruct excl as [x|]; simpl; [|done].
  destruct (String.eqb_spec uid x) as [->|Hne]; simpl; split; try done.
  intros _ [= ->]. done.
Qed.

Lemma getOnlineUsers_sublist σ excl :
  (getOnlineUsers σ excl).*1 `sublist_of` ordmap_keys (users σ).
Proof.
  unfold getOnlineUsers, ordmap_keys.
  induction (users σ) as [|[k u] l IH]; simpl; [done|].
  destruct (User.online u && not_excluded k excl); simpl.
  - by apply sublist_skip.
  - by apply sublist_cons.
Qed.

(** Membership in the roster of a registry without repeated keys. *)
Lemma roster_elem_of σ excl uid name :
  NoDup (ordmap_keys (users σ)) →
  (uid, name) ∈ getOnlineUsers σ excl ↔
  ∃ u, OrdMap.get uid (users σ) = Some u
       ∧ User.online u = true
       ∧ User.username u = name
       ∧ excl ≠ Some uid.
Proof.
  intros Hσ. unfold getOnlineUsers. rewrite list_elem_of_omap. split.
  - intros ([k u] & Hin & Hf).
    destruct (User.online u) eqn:Hon; simpl in Hf; [|done].
    destruct (not_excluded k excl) eqn:Hex; [|done].
    injection Hf as -> <-. exists u.
    split; [by apply ordmap_get_elem_of|].
    split; [done|]. split; [done|]. by apply not_excluded_true.
  - intros (u & Hu & Hon & <- & Hex). exists (uid, u).
    split; [by apply ordmap_get_elem_of|].
    apply not_excluded_true in Hex. by rewrite Hon, Hex.
Qed.

(** X18: in a reachable state the roster holds exactly the registered
    users whose online flag is set, other than the excluded one, each with
    the stored display name, each once, in registration order. *)
Theorem roster_is_online_users σ excl :
  reachable σ →
  (∀ uid name,
     (uid, name) ∈ getOnlineUsers σ excl ↔
     ∃ u, OrdMap.get uid (users σ) = Some u
          ∧ User.online u = true
          ∧ User.username u = name
          ∧ excl ≠ Some uid)
  ∧ NoDup (getOnlineUsers σ excl).*1
  ∧ (getOnlineUsers σ excl).*1 `sublist_of` ordmap_keys (users σ).
Proof.
  intros Hσ%reachable_keys_NoDup. split; [|split].
  - intros uid name. by apply roster_elem_of.
  - eapply sublist_NoDup; [done|apply getOnlineUsers_sublist].
  - apply getOnlineUsers_sublist.
Qed.

(** X19: a successful login broadcasts to every socket a roster that
    contains the user who logged in, tells the requester login-success and
    tells the other sockets user-online, all with the stored display
    name. *)
Theorem login_broadcast σ c payload uid u :
  reachable σ →
  Js.destructure payload "userId" = Some (Js.VStr uid) →
  OrdMap.get uid (users σ) = Some u →
  let r := on_user_login c payload σ in
  ∃ roster,
    out r = [emit (ToSocket c) (EvLoginSuccess uid (User.username u));
             emit ToAll (EvUsersUpdate roster);
             emit (ToAllExcept c) (EvUserOnline uid (User.username u))]
    ∧ roster = getOnlineUsers (st r) None
    ∧ (uid, User.username u) ∈ roster
    ∧ connections (st r) !! c = Some uid.
Proof.
  intros Hσ Hp Hu r.
  assert (Hr : reachable (st r)) by apply (reachable_step σ (UserLogin c payload) Hσ).
  assert (Hget : users_get σ (Js.VStr uid) = Some (uid, u))
    by (by apply users_get_Some).
  apply reachable_keys_NoDup in Hr.
  revert Hr. subst r. unfold on_user_login. rewrite Hp, Hget. simpl.
  intros Hr. eexists. split; [done|]. split; [done|].
  split; [|apply lookup_insert_eq].
  apply roster_elem_of; [done|]. simpl.
  eexists. split; [apply ordmap_get_set_eq|]. by simpl.
Qed.

(** X20: when a bound channel disconnects or logs out, the other sockets
    are told user-offline and every socket receives a roster without the
    user, also when another channel is still bound to the same user. *)
Theorem sign_off_broadcast σ c uid :
  reachable σ →
  connections σ !! c = Some uid →
  let r := on_disconnect c σ in
  ∃ name roster,
    out r = [emit (ToAllExcept c) (EvUserOffline uid name);
             emit ToAll (EvUsersUpdate roster)]
    ∧ out (on_logout c σ) = out r
    ∧ (User.username <$> OrdMap.get uid (users σ)) = Some name
    ∧ (∀ name', (uid, name') ∉ roster)
    ∧ connections (st r) !! c = None
    ∧ ∀ c', c' ≠ c → connections (st r) !! c' = connections σ !! c'.
Proof.
  intros Hσ Hc r. change (on_logout c σ) with r.
  assert (Hr : reachable (st r)) by apply (reachable_step σ (Disconnect c) Hσ).
  destruct (reachable_authenticated σ c uid Hσ Hc) as [Hauth [u Hu]].
  pose proof (reachable_keys_NoDup σ Hσ) as Hnodup.
  subst r. unfold on_disconnect in *. rewrite Hauth, Hu in *. simpl in *.
  exists (User.username u). eexists. split; [done|]. split; [done|].
  split; [done|]. split; [|split; [apply lookup_delete_eq|]].
  - intros name' Hin. unfold getOnlineUsers in Hin.
    apply list_elem_of_omap in Hin as ([k v] & Hin & Hf). simpl in Hin.
    destruct (User.online v) eqn:Hon; simpl in Hf; [|done].
    injection Hf as -> <-.
    apply ordmap_get_elem_of in Hin; [|by apply ordmap_set_NoDup].
    rewrite ordmap_get_set_eq in Hin. injection Hin as <-. done.
  - intros c' Hne. by apply lookup_delete_ne.
Qed.

(** X21: the user list of [GET /api/users] has one entry per registered
    user; the roster is the sub-list of its entries that are online, and
    the field the health check reports as onlineUsers is the length of the
    whole list, so it counts offline users too. *)
Theorem health_counts_registered_users σ excl :
  getOnlineUsers σ None
  = omap (λ '(userId, username, online),
            if online : bool then Some (userId, username) else None)
         (api_users σ)
  ∧ onlineUsers (health_check σ) = length (api_users σ)
  ∧ (length (getOnlineUsers σ excl) ≤ onlineUsers (health_check σ))%nat
  ∧ (api_users σ).*1.*1 = ordmap_keys (users σ).
Proof.
  unfold getOnlineUsers, api_users, health_check, ordmap_keys. simpl.
  split; [|split; [|split]].
  - induction (users σ) as [|[k u] l IH]; simpl; [done|].
    destruct (User.online u); simpl; by f_equal.
  - by rewrite !length_map.
  - pose proof (sublist_length _ _ (getOnlineUsers_sublist σ excl)) as H.
    by rewrite length_fmap in H.
  - induction (users σ) as [|[k u] l IH]; [done|].
    change (k :: (map (λ '(userId, user),
                    (userId, User.username user, User.online user)) l).*1.*1
            = k :: map fst l).
    by f_equal.
Qed.

(** ** The client *)

Lemma getSocket_initSocket w : Client.getSocket w = Client.initSocket w.
Proof. unfold Client.getSocket, Client.initSocket. by destruct (Client.socket w). Qed.

Lemma calls_cons w call cs :
  Client.calls w (call :: cs)
  = match call with
    | Client.CallInit | Client.CallGet =>
        ((Client.calls (Client.initSocket w).1 cs).1,
         (Client.initSocket w).2 :: (Client.calls (Client.initSocket w).1 cs).2)
    | Client.CallDisconnect => Client.calls (Client.disconnectSocket w) cs
    end.
Proof.
  destruct call; simpl; rewrite ?getSocket_initSocket; try done;
    destruct (Client.initSocket w) as [w1 s]; simpl;
    by destruct (Client.calls w1 cs).
Qed.

(** What [initSocket] returns is the socket the module holds afterwards,
    and it creates one only when none is held. *)
Lemma initSocket_spec w :
  Client.socket (Client.initSocket w).1 = Some (Client.initSocket w).2
  ∧ ((Client.socket w = Some (Client.initSocket w).2
      ∧ (Client.initSocket w).1 = w)
     ∨ (Client.socket w = None
        ∧ (Client.initSocket w).2 = Client.created w
        ∧ Client.created (Client.initSocket w).1 = S (Client.created w))).
Proof.
  unfold Client.initSocket. destruct (Client.socket w) eqn:E; simpl.
  - split; [done|]. by left.
  - split; [done|]. by right.
Qed.

Lemma calls_bound cs : ∀ w,
  (∀ s, Client.socket w = Some s → (s < Client.created w)%nat) →
  Forall (λ s, (s < Client.created (Client.calls w cs).1)%nat) (Client.calls w cs).2
  ∧ (∀ s, Client.socket (Client.calls w cs).1 = Some s →
          (s < Client.created (Client.calls w cs).1)%nat)
  ∧ (Client.created w ≤ Client.created (Client.calls w cs).1)%nat.
Proof.
  induction cs as [|call cs IH]; intros w Hw.
  - simpl. split; [by apply Forall_nil|]. split; [done|lia].
  - rewrite calls_cons.
    assert (Hinit : (∀ s, Client.socket (Client.initSocket w).1 = Some s →
                          (s < Client.created (Client.initSocket w).1)%nat)
                    ∧ (Client.created w ≤ Client.created (Client.initSocket w).1)%nat
                    ∧ ((Client.initSocket w).2
                       < Client.created (Client.initSocket w).1)%nat).
    { destruct (initSocket_spec w) as [Hheld [[Hs Hw1]|(Hs & H2 & H1)]].
      - rewrite Hw1. split; [done|]. split; [lia|by apply Hw].
      - rewrite Hheld, H1, H2. split; [intros s [= <-]; lia|lia]. }
    destruct Hinit as (Hinv1 & Hle1 & Hlt1).
    assert (Hdisc : ∀ s, Client.socket (Client.disconnectSocket w) = Some s →
                         (s < Client.created (Client.disconnectSocket w))%nat).
    { unfold Client.disconnectSocket.
      destruct (Client.socket w) eqn:Hs; [done|]. rewrite Hs. done. }
    assert (Hdc : Client.created (Client.disconnectSocket w) = Client.created w).
    { unfold Client.disconnectSocket. by destruct (Client.socket w). }
    destruct call.
    + destruct (IH _ Hinv1) as (Hall & Hinv & Hle). simpl.
      split; [|split; [done|lia]]. apply Forall_cons. split; [lia|done].
    + destruct (IH _ Hinv1) as (Hall & Hinv & Hle). simpl.
      split; [|split; [done|lia]]. apply Forall_cons. split; [lia|done].
    + destruct (IH _ Hdisc) as (Hall & Hinv & Hle).
      split; [done|]. split; [done|lia].
Qed.

(** X22: the socket module is a singleton: in a sequence of initSocket and
    getSocket calls with no disconnectSocket, every call returns the same
    socket, the one the first getSocket returns, and [io] is called at
    most once, and not at all when a socket is already held. *)
Theorem socket_singleton w cs :
  Forall (λ call, call ≠ Client.CallDisconnect) cs →
  Forall (λ s, s = (Client.getSocket w).2) (Client.calls w cs).2
  ∧ length (Client.calls w cs).2 = length cs
  ∧ (Client.created (Client.calls w cs).1 ≤ S (Client.created w))%nat
  ∧ (is_Some (Client.socket w) →
     Client.created (Client.calls w cs).1 = Client.created w).
Proof.
  revert w. induction cs as [|call cs IH]; intros w Hcs.
  - simpl. split; [by apply Forall_nil|]. split; [done|]. split; [lia|done].
  - apply Forall_cons in Hcs as [Hcall Hcs]. rewrite calls_cons.
    destruct (IH (Client.initSocket w).1 Hcs) as (Hall & Hlen & _ & Hsame).
    destruct (initSocket_spec w) as [Hheld Hcase].
    rewrite !getSocket_initSocket in *.
    assert (Hnext : (Client.initSocket (Client.initSocket w).1).2
                    = (Client.initSocket w).2).
    { unfold Client.initSocket at 1. by rewrite Hheld. }
    rewrite Hnext in Hall.
    assert (Hcreated : Client.created (Client.calls (Client.initSocket w).1 cs).1
                       = Client.created (Client.initSocket w).1).
    { apply Hsame. by eexists. }
    assert (Hgoal :
      Forall (λ s, s = (Client.initSocket w).2)
        ((Client.initSocket w).2 :: (Client.calls (Client.initSocket w).1 cs).2)
      ∧ length ((Client.initSocket w).2 :: (Client.calls (Client.initSocket w).1 cs).2)
        = length (call :: cs)
      ∧ (Client.created (Client.calls (Client.initSocket w).1 cs).1
         ≤ S (Client.created w))%nat
      ∧ (is_Some (Client.socket w) →
         Client.created (Client.calls (Client.initSocket w).1 cs).1
         = Client.created w)).
    { split; [by apply Forall_cons|]. split; [simpl; by rewrite Hlen|].
      rewrite Hcreated. destruct Hcase as [[Hs ->]|(Hs & _ & ->)].
      - split; [lia|done].
      - split; [lia|]. rewrite Hs. by intros [? ?]. }
    by destruct call.
Qed.

(** X23: after disconnectSocket the module holds no socket, the socket it
    held has been disconnected, and the next getSocket creates a socket
    that none of the earlier calls returned. *)
Theorem socket_renewed_after_disconnect cs :
  let w := (Client.calls Client.fresh_module cs).1 in
  let earlier := (Client.calls Client.fresh_module cs).2 in
  let w' := Client.disconnectSocket w in
  Client.socket w' = None
  ∧ (∀ s, Client.socket w = Some s → s ∈ Client.disconnected w')
  ∧ ((Client.getSocket w').2 ∉ earlier)
  ∧ Client.socket (Client.getSocket w').1 = Some (Client.getSocket w').2.
Proof.
  intros w earlier w'.
  destruct (calls_bound cs Client.fresh_module) as (Hall & Hinv & _); [done|].
  fold w in Hall, Hinv. fold earlier in Hall.
  assert (Hnone : Client.socket w' = None).
  { subst w'. unfold Client.disconnectSocket. by destruct (Client.socket w) eqn:E. }
  assert (Hcreated : Client.created w' = Client.created w).
  { subst w'. unfold Client.disconnectSocket. by destruct (Client.socket w). }
  split; [done|]. split.
  { intros s Hs. subst w'. unfold Client.disconnectSocket. rewrite Hs. simpl.
    apply elem_of_cons. by left. }
  unfold Client.getSocket, Client.initSocket. rewrite Hnone. simpl.
  split; [|done]. rewrite Hcreated. intros Hin.
  rewrite Forall_forall in Hall. specialize (Hall _ Hin). lia.
Qed.

(** X24: on submit the message form emits nothing and keeps its input
    when the text is empty once trimmed; otherwise it clears the input
    and, when a user is selected and the socket is set, emits exactly a
    send-message that carries the trimmed text, which is not empty, for
    the selected user, and then a typing event with isTyping false (and
    nothing when no user is selected or the socket is not set); in every
    reachable state the server handles each emitted event without an
    exception. *)
Theorem submit_is_safe page text σ c clk :
  reachable σ →
  (JsString.trim text = "" → Client.handleSubmit page text = ([], text))
  ∧ (JsString.trim text ≠ "" →
     (Client.handleSubmit page text).2 = ""
     ∧ (Client.handleSubmit page text).1
       = match Client.selectedUser page, Client.has_socket page with
         | Some (userId, _), true =>
             [ {| Client.name := "send-message";
                  Client.payload :=
                    Js.VObj [("recipientId", Js.VStr userId);
                             ("message", Js.VStr (JsString.trim text))] |};
               {| Client.name := "typing";
                  Client.payload :=
                    Js.VObj [("recipientId", Js.VStr userId);
                             ("isTyping", Js.VBool false)] |} ]
         | _, _ => []
         end)
  ∧ (∀ e, e ∈ (Client.handleSubmit page text).1 →
       (Client.name e = "send-message"
        ∧ outcome (on_send_message c clk (Client.payload e) σ) = Returned)
       ∨ (Client.name e = "typing"
          ∧ outcome (on_typing c (Client.payload e) σ) = Returned)).
Proof.
  intros Hσ. unfold Client.handleSubmit.
  destruct (String.eqb_spec (JsString.trim text) "") as [Heq|Hne]; simpl.
  { split; [done|]. split; [done|]. by intros e ?%elem_of_nil. }
  unfold Client.handleSendMessage, Client.handleTyping.
  split; [done|]. split.
  { intros _. split; [done|].
    destruct (Client.selectedUser page) as [[userId username]|]; [|done].
    by destruct (Client.has_socket page). }
  destruct (Client.selectedUser page) as [[userId username]|];
    [|by intros e ?%elem_of_nil].
  destruct (Client.has_socket page); [|by intros e ?%elem_of_nil].
  simpl. intros e [->|[->|?%elem_of_nil]%elem_of_cons]%elem_of_cons; [| |done];
    simpl.
  - left. split; [done|].
    by apply (send_message_string_returns σ c clk _ (JsString.trim text)).
  - right. split; [done|].
    destruct (outcome (on_typing c _ σ)) eqn:Ho; [done|].
    by apply typing_throws_iff in Ho as [?|?].
Qed.

(** ** Registration, again *)

Lemma is_white_space_lower c :
  JsString.is_white_space (JsString.lower_char c) = JsString.is_white_space c.
Proof. by destruct c as [[] [] [] [] [] [] [] []]. Qed.

Lemma trimStart_lower s :
  JsString.trimStart (JsString.toLowerCase s)
  = JsString.toLowerCase (JsString.trimStart s).
Proof.
  induction s as [|c s IH]; simpl; [done|].
  rewrite is_white_space_lower. by destruct (JsString.is_white_space c).
Qed.

Lemma trimEnd_lower s :
  JsString.trimEnd (JsString.toLowerCase s)
  = JsString.toLowerCase (JsString.trimEnd s).
Proof.
  induction s as [|c s IH]; simpl; [done|].
  rewrite IH, is_white_space_lower.
  destruct (JsString.trimEnd s); simpl; [|done].
  by destruct (JsString.is_white_space c).
Qed.

Lemma trim_lower s :
  JsString.trim (JsString.toLowerCase s) = JsString.toLowerCase (JsString.trim s).
Proof. unfold JsString.trim. by rewrite trimStart_lower, trimEnd_lower. Qed.

Lemma length_lower s : String.length (JsString.toLowerCase s) = String.length s.
Proof. induction s as [|c s IH]; simpl; [done|by rewrite IH]. Qed.

(** X25: in a run whose registrations carry ASCII names, a registration
    whose name is an ASCII string that equals a stored display name up to
    case is answered NameTaken and changes nothing. *)
Theorem register_duplicate_rejected evs clk name uid u :
  run_where ascii_registration initial evs →
  ascii_string name = true →
  OrdMap.get uid (users (run initial evs)) = Some u →
  JsString.toLowerCase (User.username u) = JsString.toLowerCase name →
  register clk (Js.VStr name) (run initial evs) = (run initial evs, NameTaken).
Proof.
  intros _ _ Hu Heq. set (σ := run initial evs) in *.
  assert (Hvalid : names_valid σ) by apply names_valid_run, names_valid_initial.
  destruct (Hvalid uid u Hu) as [Hlen Htrim].
  assert (Hlower : JsString.toLowerCase (JsString.trim name) = JsString.toLowerCase name).
  { by rewrite <- trim_lower, <- Heq, trim_lower, Htrim. }
  assert (Hlen' : (2 ≤ String.length (JsString.trim name))%nat).
  { rewrite <- (length_lower (JsString.trim name)), Hlower, <- Heq, length_lower.
    done. }
  assert (Hexists : name_exists σ name = true).
  { apply existsb_exists. exists u. split; [by eapply ordmap_get_values|].
    by apply String.eqb_eq. }
  unfold register. simpl.
  destruct (String.eqb_spec name "") as [->|_]; simpl; [simpl in Hlen'; lia|].
  apply Nat.ltb_ge in Hlen'. by rewrite Hlen', Hexists.
Qed.

(** X26: the identifier a successful registration returns can be used at
    once: a user-login with it succeeds, answers login-success with the
    trimmed display name, and binds the channel to the new user. *)
Theorem register_then_login σ clk username userId name c payload :
  (register clk username σ).2 = Registered userId name →
  Js.destructure payload "userId" = Some (Js.VStr userId) →
  let σ1 := (register clk username σ).1 in
  let r := on_user_login c payload σ1 in
  out r !! 0%nat = Some (emit (ToSocket c) (EvLoginSuccess userId name))
  ∧ outcome r = Returned
  ∧ connections (st r) !! c = Some userId
  ∧ ∃ u, OrdMap.get userId (users (st r)) = Some u
         ∧ User.username u = name
         ∧ User.online u = true
         ∧ User.socketId u = Some c.
Proof.
  intros Hreg Hp σ1 r.
  assert (Hu : OrdMap.get userId (users σ1)
               = Some {| User.username := name; User.socketId := None;
                         User.online := false; User.createdAt := iso_now clk |}).
  { subst σ1. revert Hreg. unfold register.
    repeat (case_match; simpl; try done).
    intros [= <- <-]. apply ordmap_get_set_eq. }
  assert (Hget : users_get σ1 (Js.VStr userId) = Some (userId, _))
    by (by apply users_get_Some).
  subst r. unfold on_user_login. rewrite Hp, Hget. simpl.
  split; [done|]. split; [done|]. split; [apply lookup_insert_eq|].
  eexists. split; [apply ordmap_get_set_eq|done].
Qed.

(** ** The further theorems at sample inputs *)

Lemma reachable_run evs : reachable (run initial evs).
Proof. by exists evs. Defined.

Lemma profile_immutable_witness :
  ∃ u', OrdMap.get Sample.alice
          (users (run (run initial Sample.registrations) Example.in_and_out))
        = Some u'
        ∧ User.username u' = "alice"
        ∧ User.createdAt u' = "2023-11-14T22:13:20.000Z".
Proof.
  refine (profile_immutable (run initial Sample.registrations)
            Example.in_and_out Sample.alice Example.alice_offline _ _).
  - reflexivity.
  - vm_compute. repeat split.
Defined.

Lemma stored_names_valid_witness : names_valid (run initial Sample.double_login).
Proof. exact (stored_names_valid _ (reachable_run Sample.double_login)). Defined.

Lemma trimmed_names_distinct_witness :
  names_distinct (run initial Sample.alice_online).
Proof.
  refine (trimmed_names_distinct Sample.alice_online _).
  vm_compute. repeat split.
Defined.

Lemma history_messages_belong_witness :
  getConversationId (Js.VStr Sample.alice) (Js.VStr Sample.bob)
  = getConversationId (Js.VStr Sample.bob) (Js.VStr Sample.alice).
Proof.
  refine (proj1 (history_messages_belong (run initial Sample.two_messages)
    Sample.bob Sample.alice None Example.first_message
    (reachable_run Sample.two_messages) _)).
  vm_compute. apply list_elem_of_here.
Defined.

Lemma send_message_throws_iff_witness :
  outcome (on_send_message "s1" Sample.clk3 Example.no_message
             (run initial Sample.alice_online)) = Thrown.
Proof.
  refine (proj2 (proj1 (send_message_throws_iff (run initial Sample.alice_online)
    "s1" Sample.clk3 Example.no_message (reachable_run Sample.alice_online))) _).
  right. exists (Js.VStr Sample.bob), Js.VUndefined.
  split; [reflexivity|]. split; [reflexivity|].
  split; [exists Sample.alice; vm_compute; reflexivity|].
  split; [exists (Sample.bob, Example.bob_offline); reflexivity|].
  intros text. discriminate.
Defined.

Lemma send_message_unauthenticated_witness :
  on_send_message "s2" Sample.clk3
    (Sample.message_payload (Js.VStr Sample.bob) (Js.VStr "hi"))
    (run initial Sample.alice_online)
  = returned (run initial Sample.alice_online)
      [emit (ToSocket "s2") (EvError "Not authenticated")].
Proof.
  refine (proj1 (send_message_unauthenticated (run initial Sample.alice_online)
            "s2" Sample.clk3 _ (reachable_run Sample.alice_online)) _).
  split.
  - intros [H|H]; discriminate H.
  - vm_compute. reflexivity.
Defined.

Lemma send_message_online_witness :
  ∃ m, out (on_send_message "s1" Sample.clk3
              (Sample.message_payload (Js.VStr Sample.bob) (Js.VStr " hi "))
              (run initial Example.both_online))
       = [emit (ToRoom "s2") (EvReceiveMessage m);
          emit (ToSocket "s1") (EvMessageSent m)].
Proof.
  destruct (send_message_online (run initial Example.both_online) "s1" Sample.clk3
    (Sample.message_payload (Js.VStr Sample.bob) (Js.VStr " hi "))
    Sample.alice Sample.bob Example.bob_on_s2 "s2" " hi "
    (reachable_run Example.both_online)) as (m & Hout & _).
  - vm_compute. reflexivity.
  - reflexivity.
  - reflexivity.
  - reflexivity.
  - reflexivity.
  - reflexivity.
  - discriminate.
  - exists m. exact Hout.
Defined.

Lemma delivery_after_login_witness :
  ∃ m, out (on_send_message "s1" Sample.clk3
              (Sample.message_payload (Js.VStr Sample.bob) (Js.VStr "hi"))
              (st (on_user_login "s2" (Sample.login_payload Sample.bob)
                     (run initial Sample.alice_online))))
       = [emit (ToRoom "s2") (EvReceiveMessage m);
          emit (ToSocket "s1") (EvMessageSent m)].
Proof.
  refine (delivery_after_login (run initial Sample.alice_online) "s2"
    (Sample.login_payload Sample.bob) "s1" Sample.clk3
    (Sample.message_payload (Js.VStr Sample.bob) (Js.VStr "hi"))
    Sample.bob Sample.alice "hi" (reachable_run Sample.alice_online) _ _ _ _ _ _).
  - reflexivity.
  - exists Example.bob_offline. reflexivity.
  - discriminate.
  - vm_compute. reflexivity.
  - reflexivity.
  - reflexivity.
Defined.

Lemma sign_off_unbound_witness :
  on_disconnect "s2" (run initial Sample.alice_online)
  = returned (run initial Sample.alice_online) [].
Proof.
  refine (proj1 (proj2 (proj2 (sign_off_unbound (run initial Sample.alice_online)
            "s2" (reachable_run Sample.alice_online))) _)).
  vm_compute. reflexivity.
Defined.

Lemma error_events_local_witness :
  out (step (run initial Sample.registrations)
         (UserLogin "s1" (Sample.login_payload Sample.carol)))
  = [emit (ToSocket "s1") (EvError "User not found")].
Proof.
  refine (proj1 (proj2 (error_events_local (run initial Sample.registrations)
    (UserLogin "s1" (Sample.login_payload Sample.carol))
    (emit (ToSocket "s1") (EvError "User not found")) "User not found" _ _))).
  - vm_compute. apply list_elem_of_here.
  - reflexivity.
Defined.

Lemma login_logout_round_trip_witness :
  st (on_logout "s1"
        (st (on_user_login "s1" (Sample.login_payload Sample.alice)
               (run initial Sample.registrations))))
  = run initial Sample.registrations.
Proof.
  refine (proj1 (login_logout_round_trip (run initial Sample.registrations) "s1"
    (Sample.login_payload Sample.alice) Sample.alice Example.alice_offline
    (reachable_run Sample.registrations) _ _ _ _)); reflexivity.
Defined.

Lemma roster_is_online_users_witness :
  NoDup (getOnlineUsers (run initial Example.both_online) None).*1.
Proof.
  exact (proj1 (proj2 (roster_is_online_users (run initial Example.both_online)
    None (reachable_run Example.both_online)))).
Defined.

Lemma login_broadcast_witness :
  ∃ roster,
    out (on_user_login "s2" (Sample.login_payload Sample.bob)
           (run initial Sample.alice_online))
    = [emit (ToSocket "s2") (EvLoginSuccess Sample.bob "bob");
       emit ToAll (EvUsersUpdate roster);
       emit (ToAllExcept "s2") (EvUserOnline Sample.bob "bob")]
    ∧ (Sample.bob, "bob") ∈ roster.
Proof.
  destruct (login_broadcast (run initial Sample.alice_online) "s2"
    (Sample.login_payload Sample.bob) Sample.bob Example.bob_offline
    (reachable_run Sample.alice_online)) as (roster & Hout & _ & Hin & _).
  - reflexivity.
  - reflexivity.
  - exists roster. split; [exact Hout|exact Hin].
Defined.

Lemma sign_off_broadcast_witness :
  ∃ roster,
    out (on_disconnect "s1" (run initial Example.alice_twice))
    = [emit (ToAllExcept "s1") (EvUserOffline Sample.alice "alice");
       emit ToAll (EvUsersUpdate roster)]
    ∧ ((Sample.alice, "alice") ∉ roster)
    ∧ connections (st (on_disconnect "s1" (run initial Example.alice_twice))) !! "s2"
      = Some Sample.alice.
Proof.
  destruct (sign_off_broadcast (run initial Example.alice_twice) "s1" Sample.alice
    (reachable_run Example.alice_twice)) as (name & roster & Hout & _ & Hname & Hnot & _ & Hother).
  - vm_compute. reflexivity.
  - injection Hname as <-. exists roster. split; [exact Hout|].
    split; [apply Hnot|]. rewrite Hother; [|discriminate].
    vm_compute. reflexivity.
Defined.

Lemma socket_singleton_witness :
  Forall (λ s, s = 0%nat)
    (Client.calls Client.fresh_module
       [Client.CallGet; Client.CallInit; Client.CallGet]).2.
Proof.
  refine (proj1 (socket_singleton Client.fresh_module
    [Client.CallGet; Client.CallInit; Client.CallGet] _)).
  repeat (apply Forall_cons; split; [discriminate|]). apply Forall_nil_2.
Defined.

Lemma submit_is_safe_witness :
  (Client.handleSubmit Example.page " hi ").1
  = [Example.hi_emit; Example.typing_stopped].
Proof.
  refine (proj2 (proj1 (proj2 (submit_is_safe Example.page " hi "
    (run initial Sample.alice_online) "s1" Sample.clk3
    (reachable_run Sample.alice_online))) _)).
  vm_compute. discriminate.
Defined.

Lemma register_duplicate_rejected_witness :
  register Sample.clk3 (Js.VStr "ALICE") (run initial Sample.registrations)
  = (run initial Sample.registrations, NameTaken).
Proof.
  refine (register_duplicate_rejected Sample.registrations
    Sample.clk3 "ALICE" Sample.alice Example.alice_offline _ _ _ _).
  - vm_compute. repeat split.
  - reflexivity.
  - reflexivity.
  - reflexivity.
Defined.

Lemma handlers_throw_iff_witness :
  outcome (on_get_chat_history "s1" Example.unprintable_request
             (run initial Sample.alice_online)) = Thrown.
Proof.
  refine (proj2 (proj1 (proj2 (handlers_throw_iff (run initial Sample.alice_online)
    "s1" Example.unprintable_request (reachable_run Sample.alice_online)))) _).
  right. exists (Js.VObj [("toString", Js.VNum 1)]).
  split; [reflexivity|]. split; [|reflexivity].
  exists Sample.alice. vm_compute. reflexivity.
Defined.

Lemma register_then_login_witness :
  connections
    (st (on_user_login "s1" (Sample.login_payload Sample.alice)
           (register Sample.clk1 (Js.VStr " alice ") initial).1)) !! "s1"
  = Some Sample.alice.
Proof.
  refine (proj1 (proj2 (proj2 (register_then_login initial Sample.clk1
    (Js.VStr " alice ") Sample.alice "alice" "s1"
    (Sample.login_payload Sample.alice) _ _)))); reflexivity.
Defined.
